(** * Table column integrity rule (GHD047)

    A shallow embedding of
    [src/content-linter/lib/linting-rules/table-column-integrity.js]
    and the properties of its table scanner.

    JavaScript strings are sequences of UTF-16 code units, the three regular
    expressions of the rule are kept as regular expressions and run by a
    derivative matcher, property reads on a possibly [undefined] value go
    through a small completion monad (normal result or a thrown TypeError),
    and the [for] loop of the rule is a fold over the indexed lines that
    threads the scan state and collects the reported errors. *)

From Stdlib Require Import ZArith NArith List Ascii String Lia Bool DecimalString Sorted.
From stdpp Require Import base list strings gmap.

Local Open Scope N_scope.

(** ** JavaScript strings *)

Module JS.

(** A code unit of a JavaScript string. *)
Definition char : Type := N.

(** A JavaScript string: its code units in order. *)
Definition jsstring : Type := list char.

(** A string literal of the source (the literals of this rule are ASCII). *)
Definition js (s : string) : jsstring :=
  map N_of_ascii (list_ascii_of_string s).

(** ECMAScript [LineTerminator]: LF, CR, LS, PS. *)
Definition is_line_terminator (c : char) : bool :=
  (c =? 0x0A) || (c =? 0x0D) || (c =? 0x2028) || (c =? 0x2029).

(** ECMAScript [WhiteSpace]: TAB, VT, FF, ZWNBSP and the space separators. *)
Definition is_white_space (c : char) : bool :=
  (c =? 0x09) || (c =? 0x0B) || (c =? 0x0C) || (c =? 0xFEFF)
  || (c =? 0x20) || (c =? 0xA0) || (c =? 0x1680)
  || ((0x2000 <=? c) && (c <=? 0x200A))
  || (c =? 0x202F) || (c =? 0x205F) || (c =? 0x3000).

(** What [String.prototype.trim] strips and what [\s] matches. *)
Definition is_space (c : char) : bool :=
  is_white_space c || is_line_terminator c.

Fixpoint trimStart (s : jsstring) : jsstring :=
  match s with
  | c :: s' => if is_space c then trimStart s' else s
  | [] => []
  end.

Definition trimEnd (s : jsstring) : jsstring := rev (trimStart (rev s)).

(** [s.trim()] *)
Definition trim (s : jsstring) : jsstring := trimEnd (trimStart s).

(** [s === ''], also the falsiness of a string. *)
Definition is_empty (s : jsstring) : bool :=
  match s with [] => true | _ :: _ => false end.

(** [s.includes(c)] for a one-character needle. *)
Definition includes (s : jsstring) (c : char) : bool := existsb (N.eqb c) s.

(** [s.split(c)] for a one-character separator: one piece more than there
    are separators, so never the empty array. *)
Fixpoint split (sep : char) (s : jsstring) : list jsstring :=
  match s with
  | [] => [[]]
  | c :: s' =>
      if c =? sep then [] :: split sep s'
      else match split sep s' with
           | piece :: pieces => (c :: piece) :: pieces
           | [] => [[c]]
           end
  end.

(** [lines.join(sep)] *)
Fixpoint join (sep : jsstring) (l : list jsstring) : jsstring :=
  match l with
  | [] => []
  | [s] => s
  | s :: l' => s ++ sep ++ join sep l'
  end.

(** [String(n)] for an integer, as a template literal prints it. *)
Definition number_toString (n : Z) : jsstring :=
  js (NilZero.string_of_int (Z.to_int n)).

(** [cells.shift()] and [cells.pop()], for the array that is left. *)
Definition shift {A} (l : list A) : list A := tail l.
Definition pop {A} (l : list A) : list A := removelast l.

(** [cells.filter((cell, index) => ...)] *)
Fixpoint filter_from {A} (f : A -> nat -> bool) (index : nat) (l : list A) : list A :=
  match l with
  | [] => []
  | x :: l' =>
      if f x index then x :: filter_from f (S index) l'
      else filter_from f (S index) l'
  end.

Definition filter_index {A} (f : A -> nat -> bool) (l : list A) : list A :=
  filter_from f 0%nat l.

(** *** Completions: a normal result or a thrown exception *)

Inductive exn : Type := TypeError.

Inductive completion (A : Type) : Type :=
| Normal (a : A)
| Throw (e : exn).
Arguments Normal {A} a.
Arguments Throw {A} e.

Definition bind {A B} (m : completion A) (k : A -> completion B) : completion B :=
  match m with
  | Normal a => k a
  | Throw e => Throw e
  end.

(** Reading a property of [v]: a TypeError when [v] is [undefined]. *)
Definition deref {A} (v : option A) : completion A :=
  match v with
  | Some a => Normal a
  | None => Throw TypeError
  end.

End JS.

Import JS.

Declare Scope js_scope.
Delimit Scope js_scope with js.
Notation "'let*' x ':=' m 'in' k" := (bind m (fun x => k))
  (at level 10, x name, m at level 100, k at level 200) : js_scope.
Local Open Scope js_scope.

(** ** Regular expressions *)

Module RegExp.

(** The fragment the three patterns of the rule are written in.  [Class p]
    is one code unit satisfying [p]: a literal, [\s], [.] or a bracket
    class. *)
Inductive regex : Type :=
| Void
| Eps
| Class (p : char -> bool)
| Seq (r1 r2 : regex)
| Alt (r1 r2 : regex)
| Star (r : regex).

(** The language of a pattern. *)
Inductive matches : regex -> jsstring -> Prop :=
| MEps : matches Eps []
| MClass p c : p c = true -> matches (Class p) [c]
| MSeq r1 r2 s1 s2 :
    matches r1 s1 -> matches r2 s2 -> matches (Seq r1 r2) (s1 ++ s2)
| MAltL r1 r2 s : matches r1 s -> matches (Alt r1 r2) s
| MAltR r1 r2 s : matches r2 s -> matches (Alt r1 r2) s
| MStarNil r : matches (Star r) []
| MStarApp r s1 s2 :
    matches r s1 -> matches (Star r) s2 -> matches (Star r) (s1 ++ s2).

Fixpoint nullable (r : regex) : bool :=
  match r with
  | Void => false
  | Eps => true
  | Class _ => false
  | Seq r1 r2 => nullable r1 && nullable r2
  | Alt r1 r2 => nullable r1 || nullable r2
  | Star _ => true
  end.

Definition seq' (r1 r2 : regex) : regex :=
  match r1, r2 with
  | Void, _ => Void
  | _, Void => Void
  | Eps, _ => r2
  | _, _ => Seq r1 r2
  end.

Definition alt' (r1 r2 : regex) : regex :=
  match r1, r2 with
  | Void, _ => r2
  | _, Void => r1
  | _, _ => Alt r1 r2
  end.

(** The residual of [r] after reading [c]. *)
Fixpoint deriv (c : char) (r : regex) : regex :=
  match r with
  | Void => Void
  | Eps => Void
  | Class p => if p c then Eps else Void
  | Seq r1 r2 =>
      if nullable r1 then alt' (seq' (deriv c r1) r2) (deriv c r2)
      else seq' (deriv c r1) r2
  | Alt r1 r2 => alt' (deriv c r1) (deriv c r2)
  | Star r1 => seq' (deriv c r1) (Star r1)
  end.

Fixpoint residual (r : regex) (s : jsstring) : regex :=
  match s with
  | [] => r
  | c :: s' => residual (deriv c r) s'
  end.

(** [/^r$/.test(s)]: the patterns of the rule are anchored at both ends and
    carry no flag, so [test] is membership of the whole string. *)
Definition test (r : regex) (s : jsstring) : bool := nullable (residual r s).

(** Pattern syntax. *)
Definition Chr (c : char) : regex := Class (N.eqb c).
Definition lit (s : string) : regex := fold_right (fun c r => Seq (Chr c) r) Eps (js s).
(** [\s] *)
Definition space : regex := Class is_space.
(** [.] without the [s] flag: any code unit but a line terminator. *)
Definition dot : regex := Class (fun c => negb (is_line_terminator c)).

End RegExp.

Import RegExp.

Infix "⋅" := Seq (at level 41, right associativity) : js_scope.

(** ** The rule *)

Definition pipe : char := 0x7C.

(** [/^\s*\|.*\|\s*$/] *)
Definition TABLE_ROW_REGEX : regex :=
  Star space ⋅ Chr pipe ⋅ Star dot ⋅ Chr pipe ⋅ Star space.

(** [[\s\-:|\s]] *)
Definition separator_class (c : char) : bool :=
  is_space c || (c =? 0x2D) || (c =? 0x3A) || (c =? pipe) || is_space c.

(** [/^\s*\|[\s\-:|\s]*\|\s*$/] *)
Definition TABLE_SEPARATOR_REGEX : regex :=
  Star space ⋅ Chr pipe ⋅ Star (Class separator_class) ⋅ Chr pipe ⋅ Star space.

(** [/^\s*{%\s*(ifversion|else|endif|elsif).*%}\s*$/] *)
Definition LIQUID_ONLY_CELL_REGEX : regex :=
  Star space ⋅ lit "{%" ⋅ Star space
  ⋅ Alt (lit "ifversion") (Alt (lit "else") (Alt (lit "endif") (lit "elsif")))
  ⋅ Star dot ⋅ lit "%}" ⋅ Star space.

(** Lines 28-30 of [countColumns]: the first element of [cells] is removed
    when it trims to the empty string. *)
Definition shift_if_empty (cells : list jsstring) : completion (list jsstring) :=
  if (0 <? length cells)%nat then
    let* first := deref (cells !! 0%nat) in
    Normal (if is_empty (trim first) then shift cells else cells)
  else Normal cells.

(** Lines 31-33: the same for the last element of what is left. *)
Definition pop_if_empty (cells : list jsstring) : completion (list jsstring) :=
  if (0 <? length cells)%nat then
    let* last := deref (cells !! (length cells - 1)%nat) in
    Normal (if is_empty (trim last) then pop cells else cells)
  else Normal cells.

(** The array [cells] of [countColumns] when it is counted. *)
Definition discard_ends (cells : list jsstring) : completion (list jsstring) :=
  let* cells := shift_if_empty cells in
  pop_if_empty cells.

(** [countColumns(row)] *)
Definition countColumns (row : jsstring) : completion Z :=
  let trimmed := trim row in
  if is_empty trimmed || negb (includes trimmed pipe) then Normal 0%Z
  else
    let* cells := discard_ends (split pipe trimmed) in
    Normal (Z.of_nat (length cells)).

(** [filteredCells] of [isLiquidOnlyRow]. *)
Definition filteredCells (cells : list jsstring) : list jsstring :=
  filter_index
    (fun cell index =>
       if (index =? 0)%nat && is_empty (trim cell) then false
       else if (index =? length cells - 1)%nat && is_empty (trim cell) then false
       else true)
    cells.

(** [isLiquidOnlyRow(row)] *)
Definition isLiquidOnlyRow (row : jsstring) : bool :=
  let trimmed := trim row in
  if negb (includes trimmed pipe) then false
  else
    let cells := split pipe trimmed in
    let filteredCells := filteredCells cells in
    (0 <? length filteredCells)%nat
    && forallb (fun cell => test LIQUID_ONLY_CELL_REGEX cell) filteredCells.

(** *** Reported errors and scan state *)

(** markdownlint's [fixInfo]; this rule always passes [null]. *)
Record FixInfo : Type := {
  editColumn : nat;
  deleteCount : Z;
  insertText : jsstring
}.

(** What [addError(onError, lineNumber, detail, context, range, fixInfo)]
    hands to [onError]. *)
Record Diagnostic (Range : Type) : Type := {
  lineNumber : nat;
  detail : jsstring;
  context : jsstring;
  range : Range;
  fixInfo : option FixInfo
}.
Arguments lineNumber {Range} _.
Arguments detail {Range} _.
Arguments context {Range} _.
Arguments range {Range} _.
Arguments fixInfo {Range} _.

(** The [let] variables of the rule function; [null] is [None]. *)
Record ScanState : Type := {
  inTable : bool;
  expectedColumnCount : option Z;
  tableStartLine : option nat;
  headerRow : option jsstring
}.

Definition initial : ScanState :=
  {| inTable := false; expectedColumnCount := None;
     tableStartLine := None; headerRow := None |}.

(** [params] of a markdownlint rule, the two fields the rule reads. *)
Record Params : Type := {
  frontMatterLines : list jsstring;
  lines : list jsstring
}.

(** The result of the front-matter reader: [data] is an object or absent. *)
Record FrontMatter (Value : Type) : Type := {
  data : option (gmap string Value)
}.
Arguments data {Value} _.

(** [actual !== expected], [expected] a number or [null]. *)
Definition strict_ne (actual : Z) (expected : option Z) : bool :=
  match expected with
  | Some e => negb (actual =? e)%Z
  | None => true
  end.

(** [ToNumber] of a number or [null]. *)
Definition ToNumber (v : option Z) : Z :=
  match v with Some n => n | None => 0%Z end.

(** A number or [null] inside a template literal. *)
Definition ToString (v : option Z) : jsstring :=
  match v with Some n => number_toString n | None => js "null" end.

(** The two template literals of lines 117 and 119. *)
Definition errorMessage (actualColumnCount : Z) (expectedColumnCount : option Z) : jsstring :=
  if (ToNumber expectedColumnCount <? actualColumnCount)%Z then
    js "Table row has " ++ number_toString actualColumnCount
    ++ js " columns but header has " ++ ToString expectedColumnCount
    ++ js ". Add " ++ number_toString (actualColumnCount - ToNumber expectedColumnCount)
    ++ js " more column(s) to the header row to match this row."
  else
    js "Table row has " ++ number_toString actualColumnCount
    ++ js " columns but header has " ++ ToString expectedColumnCount
    ++ js ". Add " ++ number_toString (ToNumber expectedColumnCount - actualColumnCount)
    ++ js " missing column(s) to this row.".

Section Scanner.

(** The two helpers of the repository the rule calls and that are not part
    of this file: the highlight range of a line and the front-matter reader,
    whose values the rule only tests for truthiness. *)
Context {Range Value : Type}.
Variable getRange : jsstring -> jsstring -> Range.
Variable ToBoolean : Value -> bool.
Variable frontmatter : jsstring -> FrontMatter Value.

(** [nextLine && TABLE_SEPARATOR_REGEX.test(nextLine)] for
    [nextLine = lines[i + 1]]. *)
Definition nextLine_is_separator (lines : list jsstring) (i : nat) : bool :=
  match lines !! (i + 1)%nat with
  | Some nextLine => negb (is_empty nextLine) && test TABLE_SEPARATOR_REGEX nextLine
  | None => false
  end.

(** One iteration of the loop at index [i], [line = lines[i]]: the next scan
    state and the errors reported during the iteration.  Each [continue] is
    a branch that returns. *)
Definition step (lines : list jsstring) (i : nat) (line : jsstring) (st : ScanState)
  : completion (ScanState * list (Diagnostic Range)) :=
  let isTableRow := test TABLE_ROW_REGEX line in
  let isSeparatorRow := test TABLE_SEPARATOR_REGEX line in
  if negb (inTable st) && isTableRow && nextLine_is_separator lines i then
    let* count := countColumns line in
    Normal ({| inTable := true; expectedColumnCount := Some count;
               tableStartLine := Some (i + 1)%nat; headerRow := Some line |}, [])
  else if inTable st && negb isTableRow then
    Normal (initial, [])
  else if inTable st && isTableRow && negb isSeparatorRow then
    if isLiquidOnlyRow line then Normal (st, [])
    else
      let* actualColumnCount := countColumns line in
      if strict_ne actualColumnCount (expectedColumnCount st) then
        let range := getRange line (trim line) in
        Normal (st, [ {| lineNumber := (i + 1)%nat;
                         detail := errorMessage actualColumnCount (expectedColumnCount st);
                         context := line;
                         range := range;
                         fixInfo := None |} ])
      else Normal (st, [])
  else Normal (st, []).

(** [for (let i = 0; i < lines.length; i++)], entered at index [i] with the
    lines [todo] still to visit. *)
Fixpoint loop (lines : list jsstring) (i : nat) (todo : list jsstring) (st : ScanState)
  : completion (ScanState * list (Diagnostic Range)) :=
  match todo with
  | [] => Normal (st, [])
  | line :: todo' =>
      let* r := step lines i line st in
      let* r' := loop lines (S i) todo' (fst r) in
      Normal (fst r', snd r ++ snd r')
  end.

(** The scan of a document body: lines 70-132. *)
Definition scan (lines : list jsstring) : completion (list (Diagnostic Range)) :=
  let* r := loop lines 0%nat lines initial in
  Normal (snd r).

(** The scan state on reaching line index [i]. *)
Definition state_at (lines : list jsstring) (i : nat) : completion ScanState :=
  let* r := loop lines 0%nat (take i lines) initial in
  Normal (fst r).

(** [fm && fm.autogenerated] *)
Definition autogenerated (fm : option (gmap string Value)) : bool :=
  match fm with
  | Some fm =>
      match fm !! "autogenerated"%string with
      | Some v => ToBoolean v
      | None => false
      end
  | None => false
  end.

(** [tableColumnIntegrity.function(params, onError)]: the errors handed to
    [onError], in order. *)
Definition tableColumnIntegrity (params : Params) : completion (list (Diagnostic Range)) :=
  let frontmatterString := join [0x0A] (frontMatterLines params) in
  let fm := data (frontmatter frontmatterString) in
  if autogenerated fm then Normal []
  else scan (lines params).

End Scanner.

(** A state is well formed when an open region knows its column count. *)
Definition well_formed (st : ScanState) : Prop :=
  inTable st = true -> exists n, expectedColumnCount st = Some n.

(** A state expects [n] columns when an open region has that count. *)
Definition expects (n : Z) (st : ScanState) : Prop :=
  inTable st = true -> expectedColumnCount st = Some n.

(** A header and separator pair starts at line index [j]. *)
Definition opens (lines : list jsstring) (j : nat) : bool :=
  match lines !! j with
  | Some line => test TABLE_ROW_REGEX line && nextLine_is_separator lines j
  | None => false
  end.

(** ** Sample documents and collaborators *)

Module Sample.

Definition header : jsstring := js "| Name | Value |".
Definition separator : jsstring := js "|------|-------|".

(** A highlight range: the 1-based column of the trimmed text and its length. *)
Definition getRange (line content : jsstring) : nat * nat :=
  (S (length line - length (trimStart line)), length content).

(** A front-matter reader that knows one document head. *)
Definition frontmatter (text : jsstring) : FrontMatter jsstring :=
  {| data := Some (if decide (text = js "autogenerated: rest")
                   then {[ "autogenerated"%string := js "rest" ]}
                   else ∅) |}.

(** Truthiness of a string. *)
Definition ToBoolean (v : jsstring) : bool := negb (is_empty v).

Definition three_columns : list jsstring := [header; separator; js "| a | b | c |"].
Definition one_column : list jsstring := [header; separator; js "| a |"].
Definition well_formed_table : list jsstring :=
  [js "Intro"; header; separator; js "| a | b |"; js "| c | d |"; js ""; js "Outro"].
Definition no_separator : list jsstring :=
  [header; js "| a | b | c |"; js "| a |"].
Definition liquid_row : list jsstring :=
  [header; separator; js "| {% ifversion fpt %} | {% endif %} | {% else %} |"].
Definition prefix_keywords : list jsstring :=
  [header; separator; js "| {% elseware x %} | {% ifversioned y %} | {% endifs %} |"].
Definition later_separator : list jsstring :=
  [header; separator; js "| a | b |"; js "|:--|"; js "| c | d |"].
Definition delimiter_free : list jsstring := [header; separator; js "abc"].
(** The scan state after the header and separator of the samples. *)
Definition inside_sample : ScanState :=
  {| inTable := true; expectedColumnCount := Some 2%Z;
     tableStartLine := Some 1%nat; headerRow := Some header |}.

Definition autogenerated_doc : Params :=
  {| frontMatterLines := [js "autogenerated: rest"]; lines := three_columns |}.

End Sample.

(** ** The column counter as the specification words it *)

Module Spec.

(** A piece that is empty or whitespace-only. *)
Definition blank (s : jsstring) : bool := forallb is_space s.

(** If the first piece is empty or whitespace-only, drop it. *)
Definition drop_first_if_blank (pieces : list jsstring) : list jsstring :=
  match pieces with
  | first :: rest => if blank first then rest else pieces
  | [] => []
  end.

(** The same rule for the last piece. *)
Definition drop_last_if_blank (pieces : list jsstring) : list jsstring :=
  match last pieces with
  | Some p => if blank p then removelast pieces else pieces
  | None => []
  end.

(** Trim the row; if empty or delimiter-free, 0; else split on the delimiter,
    apply the two rules and count what remains. *)
Definition countColumns_spec (row : jsstring) : Z :=
  let trimmed := trim row in
  if is_empty trimmed || negb (includes trimmed pipe) then 0%Z
  else
    Z.of_nat (length (drop_last_if_blank (drop_first_if_blank (split pipe trimmed)))).

(** The keywords the template exemption recognizes. *)
Definition recognized_keywords : list jsstring :=
  [js "ifversion"; js "else"; js "endif"; js "elsif"].

(** Letters, digits and the underscore. *)
Definition is_word (c : char) : bool :=
  ((0x30 <=? c) && (c <=? 0x39)) || ((0x41 <=? c) && (c <=? 0x5A))
  || (c =? 0x5F) || ((0x61 <=? c) && (c <=? 0x7A)).

Fixpoint take_word (s : jsstring) : jsstring :=
  match s with
  | c :: s' => if is_word c then c :: take_word s' else []
  | [] => []
  end.

(** The keyword of a directive cell: the word after the opening marker. *)
Definition keyword (cell : jsstring) : jsstring :=
  take_word (trimStart (drop 2 (trimStart cell))).

End Spec.

(** ** Notions for the properties of the scanner *)

(** The number of delimiters in a line. *)
Definition count_pipes (s : jsstring) : nat := count_occ N.eq_dec s pipe.

(** What [.] matches. *)
Definition not_line_terminator (c : char) : bool := negb (is_line_terminator c).

(** What the scan state says on reaching line index [i]: outside a region
    every variable is [null]; inside, the variables describe a header at
    some earlier index [j] whose next line is a separator, and every line
    after the header and before [i] is a table row. *)
Definition region_at (lines : list jsstring) (i : nat) (st : ScanState) : Prop :=
  if inTable st then
    exists j header n,
      (j < i)%nat
      /\ lines !! j = Some header
      /\ test TABLE_ROW_REGEX header = true
      /\ nextLine_is_separator lines j = true
      /\ (forall m, (j < m < i)%nat ->
                    exists line, lines !! m = Some line
                                 /\ test TABLE_ROW_REGEX line = true)
      /\ countColumns header = Normal n
      /\ st = {| inTable := true; expectedColumnCount := Some n;
                 tableStartLine := Some (j + 1)%nat; headerRow := Some header |}
  else st = initial.

(** An error moved [k] lines down. *)
Definition renumber {Range : Type} (k : nat) (d : Diagnostic Range) : Diagnostic Range :=
  {| lineNumber := (k + lineNumber d)%nat;
     detail := detail d;
     context := context d;
     range := range d;
     fixInfo := fixInfo d |}.

(** A scan state whose region starts [k] lines further down. *)
Definition shift_state (k : nat) (st : ScanState) : ScanState :=
  {| inTable := inTable st;
     expectedColumnCount := expectedColumnCount st;
     tableStartLine := (fun n => (k + n)%nat) <$> tableStartLine st;
     headerRow := headerRow st |}.

(** Further sample lines. *)
Module MoreSample.

Definition indented_row : jsstring := js "   | a | b | c |  ".
Definition liquid_cell : jsstring := js " {% ifversion ghes %} ".
Definition two_tables : list jsstring :=
  [Sample.header; Sample.separator; js "| a |"; js "";
   Sample.header; Sample.separator; js "| a | b | c |"].

End MoreSample.

(** * Properties *)

(** ** The matcher decides the language of a pattern *)

Module RegExpFacts.

Lemma matches_void_inv s : matches Void s -> False.
Proof. inversion 1. Qed.

Lemma matches_eps_inv s : matches Eps s -> s = [].
Proof. by inversion 1. Qed.

Lemma matches_class_inv p s : matches (Class p) s -> exists c, s = [c] /\ p c = true.
Proof. inversion 1; subst; eauto. Qed.

Lemma matches_seq_inv r1 r2 s :
  matches (Seq r1 r2) s ->
  exists s1 s2, s = s1 ++ s2 /\ matches r1 s1 /\ matches r2 s2.
Proof. inversion 1; subst; eauto. Qed.

Lemma matches_alt_inv r1 r2 s :
  matches (Alt r1 r2) s -> matches r1 s \/ matches r2 s.
Proof. inversion 1; subst; eauto. Qed.

Lemma seq'_matches r1 r2 s :
  matches (seq' r1 r2) s <-> matches (Seq r1 r2) s.
Proof.
  split.
  - destruct r1, r2; simpl; intros H; try done;
      try (by apply matches_void_inv in H);
      by apply (MSeq Eps _ [] s); [constructor | ].
  - intros (s1 & s2 & -> & H1 & H2)%matches_seq_inv.
    destruct r1; try (by apply matches_void_inv in H1);
      destruct r2; simpl; try (by apply matches_void_inv in H2);
      try (by constructor);
      by apply matches_eps_inv in H1 as ->.
Qed.

Lemma alt'_matches r1 r2 s :
  matches (alt' r1 r2) s <-> matches (Alt r1 r2) s.
Proof.
  split.
  - destruct r1, r2; simpl; intros H; try done;
      try (by apply MAltL); by apply MAltR.
  - intros [H | H]%matches_alt_inv.
    + destruct r1; try (by apply matches_void_inv in H);
        destruct r2; simpl; try done; by apply MAltL.
    + destruct r2; try (by apply matches_void_inv in H);
        destruct r1; simpl; try done; by apply MAltR.
Qed.

Lemma nullable_matches r : nullable r = true <-> matches r [].
Proof.
  induction r as [| | p | r1 IH1 r2 IH2 | r1 IH1 r2 IH2 | r IH]; simpl.
  - split; [done | by intros ?%matches_void_inv].
  - split; [constructor | done].
  - split; [done | by intros (c & ? & _)%matches_class_inv].
  - rewrite andb_true_iff, IH1, IH2. split.
    + intros [H1 H2]. by apply (MSeq _ _ [] []).
    + intros (s1 & s2 & Hs & H1 & H2)%matches_seq_inv.
      symmetry in Hs. apply app_eq_nil in Hs as [-> ->]. done.
  - rewrite orb_true_iff, IH1, IH2. split.
    + intros [H | H]; [by apply MAltL | by apply MAltR].
    + apply matches_alt_inv.
  - split; [constructor | done].
Qed.

(** A non-empty match of a star starts with a non-empty match of its body. *)
Lemma matches_star_cons r c s :
  matches (Star r) (c :: s) ->
  exists s1 s2, s = s1 ++ s2 /\ matches r (c :: s1) /\ matches (Star r) s2.
Proof.
  intros H. remember (Star r) as r' eqn:Hr. remember (c :: s) as s' eqn:Hs.
  revert s Hs.
  induction H as [| | | | | | r0 s1 s2 H1 _ H2 IH2]; intros t Ht; try done.
  injection Hr as ->. destruct s1 as [| c1 s1]; simpl in Ht.
  - by apply IH2.
  - injection Ht as -> <-. eauto.
Qed.

Lemma deriv_matches c r s : matches (deriv c r) s <-> matches r (c :: s).
Proof.
  revert s.
  induction r as [| | p | r1 IH1 r2 IH2 | r1 IH1 r2 IH2 | r IH]; intros s; simpl.
  - split; by intros ?%matches_void_inv.
  - split; [by intros ?%matches_void_inv | by intros ?%matches_eps_inv].
  - destruct (p c) eqn:Hp; split.
    + intros ->%matches_eps_inv. by constructor.
    + intros (c' & [= -> ->] & _)%matches_class_inv. constructor.
    + by intros ?%matches_void_inv.
    + intros (c' & [= -> ->] & ?)%matches_class_inv. congruence.
  - assert (matches (seq' (deriv c r1) r2) s <->
            exists s1 s2, s = s1 ++ s2 /\ matches r1 (c :: s1) /\ matches r2 s2) as Hseq.
    { rewrite seq'_matches. split.
      - intros (s1 & s2 & -> & H1 & H2)%matches_seq_inv. apply IH1 in H1. eauto.
      - intros (s1 & s2 & -> & H1 & H2). constructor; [by apply IH1 | done]. }
    destruct (nullable r1) eqn:Hn.
    + rewrite alt'_matches. split.
      * intros [H | H]%matches_alt_inv.
        -- apply Hseq in H as (s1 & s2 & -> & H1 & H2).
           by apply (MSeq _ _ (c :: s1) s2).
        -- apply IH2 in H. apply nullable_matches in Hn.
           by apply (MSeq _ _ [] (c :: s)).
      * intros (s1 & s2 & Hs & H1 & H2)%matches_seq_inv.
        destruct s1 as [| c1 s1]; simpl in Hs.
        -- subst s2. apply MAltR. by apply IH2.
        -- injection Hs as <- ->. apply MAltL. apply Hseq. eauto.
    + rewrite Hseq. split.
      * intros (s1 & s2 & -> & H1 & H2). by apply (MSeq _ _ (c :: s1) s2).
      * intros (s1 & s2 & Hs & H1 & H2)%matches_seq_inv.
        destruct s1 as [| c1 s1]; simpl in Hs.
        -- apply nullable_matches in H1. congruence.
        -- injection Hs as <- ->. eauto.
  - rewrite alt'_matches. split.
    + intros [H | H]%matches_alt_inv; [apply MAltL, IH1 | apply MAltR, IH2]; done.
    + intros [H | H]%matches_alt_inv; [apply MAltL, IH1 | apply MAltR, IH2]; done.
  - rewrite seq'_matches. split.
    + intros (s1 & s2 & -> & H1 & H2)%matches_seq_inv. apply IH in H1.
      by apply (MStarApp _ (c :: s1) s2).
    + intros (s1 & s2 & -> & H1 & H2)%matches_star_cons.
      constructor; [by apply IH | done].
Qed.

(** [test] is membership in the language of the pattern. *)
Lemma test_matches r s : test r s = true <-> matches r s.
Proof.
  unfold test. revert r. induction s as [| c s IH]; intros r; simpl.
  - apply nullable_matches.
  - rewrite IH. apply deriv_matches.
Qed.

Lemma test_false_iff r s : test r s = false <-> ~ matches r s.
Proof. rewrite <- test_matches. by destruct (test r s). Qed.

End RegExpFacts.

(** ** Strings: [trim], [includes], [split] *)

Module StringFacts.

Import Spec.

Lemma includes_In s c : includes s c = true <-> In c s.
Proof.
  unfold includes. rewrite existsb_exists. split.
  - intros (x & Hx & ->%N.eqb_eq). done.
  - intros H. exists c. by rewrite N.eqb_refl.
Qed.

Lemma includes_false s c : includes s c = false <-> ~ In c s.
Proof. rewrite <- includes_In. by destruct (includes s c). Qed.

Lemma blank_app s t : blank (s ++ t) = blank s && blank t.
Proof. apply forallb_app. Qed.

Lemma blank_rev s : blank (rev s) = blank s.
Proof.
  induction s as [| c s IH]; simpl; [done |].
  rewrite blank_app, IH. simpl. rewrite andb_true_r. apply andb_comm.
Qed.

(** [trimStart] removes a prefix of spaces and stops at a non-space. *)
Lemma trimStart_spec s :
  exists l, s = l ++ trimStart s /\ blank l = true
            /\ (trimStart s = [] \/ exists c t, trimStart s = c :: t /\ is_space c = false).
Proof.
  induction s as [| c s (l & Hs & Hl & Hr)]; simpl.
  - exists []. auto.
  - destruct (is_space c) eqn:Hc.
    + exists (c :: l). unfold blank in *. simpl. rewrite Hc, Hl.
      split; [by f_equal | by split].
    + exists []. split; [done | split; [done |]]. right. by exists c, s.
Qed.

Lemma trimStart_blank s : blank s = true -> trimStart s = [].
Proof.
  induction s as [| c s IH]; simpl; [done |].
  intros [-> ?]%andb_true_iff. auto.
Qed.

Lemma trimStart_snoc s c :
  is_space c = false -> exists u, trimStart (s ++ [c]) = u ++ [c].
Proof.
  intros Hc. induction s as [| d s [u IH]]; simpl.
  - rewrite Hc. by exists [].
  - destruct (is_space d); [eauto |]. by exists (d :: s).
Qed.

(** [trim] keeps the middle of the string, which is empty or starts and ends
    with a non-space. *)
Lemma trim_spec s :
  exists l r, s = l ++ trim s ++ r /\ blank l = true /\ blank r = true
              /\ (trim s = [] \/
                  exists c m m' d, trim s = c :: m /\ is_space c = false
                                   /\ trim s = m' ++ [d] /\ is_space d = false).
Proof.
  unfold trim, trimEnd.
  destruct (trimStart_spec s) as (l & Hs & Hl & Ht).
  destruct (trimStart_spec (rev (trimStart s))) as (r & Hr & Hbr & Hu).
  exists l, (rev r). rewrite blank_rev. split; [| split; [done | split; [done |]]].
  - rewrite <- rev_app_distr, <- Hr, rev_involutive. done.
  - destruct Ht as [Ht | (c & t & Ht & Hc)].
    + rewrite Ht. simpl. by left.
    + right. rewrite Ht. simpl.
      destruct (trimStart_snoc (rev t) c Hc) as [u Hu'].
      rewrite Hu', rev_app_distr. simpl.
      destruct Hu as [Hu | (d & w & Hu & Hd)].
      * rewrite Ht in Hu. simpl in Hu. rewrite Hu' in Hu. by destruct u.
      * rewrite Ht in Hu. simpl in Hu. rewrite Hu' in Hu.
        exists c, (rev u), (rev w), d. split; [done |]. split; [done |].
        split; [| done]. rewrite <- (rev_involutive (c :: rev u)).
        simpl. rewrite rev_involutive, Hu. done.
Qed.

Lemma is_empty_nil (s : jsstring) : is_empty s = true <-> s = [].
Proof. by destruct s. Qed.

(** [s.trim() === ''] says that [s] is empty or holds only spaces. *)
Lemma is_empty_trim s : is_empty (trim s) = blank s.
Proof.
  destruct (trim_spec s) as (l & r & Hs & Hl & Hr & Hm).
  rewrite Hs at 2. rewrite !blank_app, Hl, Hr, andb_true_r. simpl.
  destruct Hm as [-> | (c & m & m' & d & Hm & Hc & _)]; [done |].
  rewrite Hm. simpl. by rewrite Hc.
Qed.

Lemma blank_not_In s c : blank s = true -> is_space c = false -> ~ In c s.
Proof.
  unfold blank. rewrite forallb_forall. intros H Hc Hin.
  apply H in Hin. congruence.
Qed.

(** Trimming neither removes nor adds a non-space character. *)
Lemma In_trim s c : is_space c = false -> In c (trim s) <-> In c s.
Proof.
  intros Hc. destruct (trim_spec s) as (l & r & Hs & Hl & Hr & _).
  rewrite Hs at 2. rewrite !in_app_iff. split; [auto |].
  intros [H | [H | H]]; [| done |]; by eapply blank_not_In in H.
Qed.

Lemma includes_trim s c : is_space c = false -> includes (trim s) c = includes s c.
Proof.
  intros Hc. apply eq_true_iff_eq. rewrite !includes_In. by apply In_trim.
Qed.

Lemma split_not_nil sep s : split sep s <> [].
Proof.
  destruct s as [| c s]; simpl; [done |].
  destruct (c =? sep); [done |]. by destruct (split sep s).
Qed.

Lemma split_length_pos sep s : (1 <= length (split sep s))%nat.
Proof.
  pose proof (split_not_nil sep s). destruct (split sep s); simpl; [done | lia].
Qed.

(** A string with a separator splits into at least two pieces. *)
Lemma split_length_includes sep s :
  includes s sep = true -> (2 <= length (split sep s))%nat.
Proof.
  unfold includes. induction s as [| c s IH]; simpl; [done |].
  rewrite (N.eqb_sym sep c). destruct (c =? sep); simpl.
  - intros _. pose proof (split_length_pos sep s). lia.
  - intros H%IH. destruct (split sep s); simpl in *; lia.
Qed.

Lemma split_cons_ne sep c s :
  c <> sep -> exists p ps, split sep (c :: s) = (c :: p) :: ps.
Proof.
  intros Hne. simpl. apply N.eqb_neq in Hne as ->.
  destruct (split sep s) eqn:E; [by apply split_not_nil in E | eauto].
Qed.

Lemma split_snoc_ne sep c s :
  c <> sep -> exists ps p, split sep (s ++ [c]) = ps ++ [p ++ [c]].
Proof.
  intros Hne. induction s as [| d s (ps & p & IH)]; simpl.
  - apply N.eqb_neq in Hne as ->. by exists [], [].
  - rewrite IH. destruct (d =? sep).
    + by exists ([] :: ps), p.
    + destruct ps as [| q ps]; simpl.
      * by exists [], (d :: p).
      * by exists ((d :: q) :: ps), p.
Qed.

End StringFacts.

(** ** The two ways of discarding the end pieces *)

Module CellFacts.

Import Spec StringFacts.

(** The shift and pop of [countColumns] are the two rules of the
    specification, on every array. *)
Lemma shift_if_empty_spec cells :
  shift_if_empty cells = Normal (drop_first_if_blank cells).
Proof.
  destruct cells as [| first rest]; [done |].
  unfold shift_if_empty. simpl. by rewrite is_empty_trim.
Qed.

Lemma pop_if_empty_spec cells :
  pop_if_empty cells = Normal (drop_last_if_blank cells).
Proof.
  unfold pop_if_empty, drop_last_if_blank. rewrite last_lookup.
  replace (pred (length cells)) with (length cells - 1)%nat by lia.
  destruct cells as [| x l]; [done |].
  replace (0 <? length (x :: l))%nat with true by (simpl; done).
  destruct (lookup_lt_is_Some_2 (x :: l) (length (x :: l) - 1)) as [y Hy];
    [simpl; lia |].
  rewrite Hy. simpl. by rewrite is_empty_trim.
Qed.

Lemma discard_ends_spec cells :
  discard_ends cells = Normal (drop_last_if_blank (drop_first_if_blank cells)).
Proof.
  unfold discard_ends. rewrite shift_if_empty_spec. simpl.
  apply pop_if_empty_spec.
Qed.

Lemma filter_from_snoc {A} (f : A -> nat -> bool) k (mid : list A) lst :
  (forall j x, (k <= j < k + length mid)%nat -> f x j = true) ->
  filter_from f k (mid ++ [lst])
  = mid ++ (if f lst (k + length mid)%nat then [lst] else []).
Proof.
  revert k. induction mid as [| x mid IH]; intros k Hf; simpl.
  - by rewrite Nat.add_0_r.
  - rewrite (Hf k x) by (simpl; lia). rewrite IH.
    + by replace (S k + length mid)%nat with (k + S (length mid))%nat by lia.
    + intros j y Hj. apply Hf. simpl. lia.
Qed.

(** The index filter of [isLiquidOnlyRow] is the two rules of the
    specification as soon as there are two pieces. *)
Lemma filteredCells_spec cells :
  (2 <= length cells)%nat ->
  filteredCells cells = drop_last_if_blank (drop_first_if_blank cells).
Proof.
  intros Hlen. destruct cells as [| first rest]; [simpl in Hlen; lia |].
  destruct (last rest) as [lst |] eqn:Hlast;
    [| apply last_None in Hlast as ->; simpl in Hlen; lia].
  apply last_Some in Hlast as [mid ->].
  unfold filteredCells, filter_index.
  set (n := (length (first :: mid ++ [lst]) - 1)%nat).
  assert (n = S (length mid)) as ->
    by (subst n; rewrite length_cons, length_app; simpl; lia).
  cbn [filter_from]. rewrite filter_from_snoc.
  - cbn [Nat.eqb Nat.add andb]. rewrite Nat.eqb_refl, !is_empty_trim.
    unfold drop_first_if_blank, drop_last_if_blank.
    destruct (blank first) eqn:Hf, (blank lst) eqn:Hl; cbn [andb].
    + by rewrite last_snoc, Hl, removelast_last, app_nil_r.
    + by rewrite last_snoc, Hl.
    + change (first :: mid ++ [lst]) with ((first :: mid) ++ [lst]).
      by rewrite last_snoc, Hl, removelast_last, app_nil_r.
    + change (first :: mid ++ [lst]) with ((first :: mid) ++ [lst]).
      by rewrite last_snoc, Hl.
  - intros j x Hj.
    destruct (Nat.eqb_spec j 0); [lia |].
    destruct (Nat.eqb_spec j (S (length mid))); [lia | done].
Qed.

(** [countColumns] never throws and computes the count of the
    specification. *)
Lemma countColumns_spec_eq row : countColumns row = Normal (countColumns_spec row).
Proof.
  unfold countColumns, countColumns_spec.
  destruct (is_empty (trim row) || negb (includes (trim row) pipe)); [done |].
  by rewrite discard_ends_spec.
Qed.

Lemma countColumns_no_pipe row :
  includes row pipe = false -> countColumns row = Normal 0%Z.
Proof.
  intros H. unfold countColumns. rewrite includes_trim by done.
  rewrite H. by rewrite orb_true_r.
Qed.

End CellFacts.

(** ** The row patterns *)

Module RowFacts.

Import Spec RegExpFacts StringFacts.

Lemma matches_chr_inv c s : matches (Chr c) s -> s = [c].
Proof. by intros (c' & -> & ->%N.eqb_eq)%matches_class_inv. Qed.

(** Both row patterns demand a delimiter. *)
Lemma matches_row_pipe s : matches TABLE_ROW_REGEX s -> In pipe s.
Proof.
  intros (s1 & s2 & -> & _ & (s3 & s4 & -> & ->%matches_chr_inv & _)%matches_seq_inv)%matches_seq_inv.
  rewrite in_app_iff. right. by left.
Qed.

Lemma test_row_no_pipe s : includes s pipe = false -> test TABLE_ROW_REGEX s = false.
Proof.
  intros H. apply test_false_iff. intros Hm%matches_row_pipe.
  by apply includes_false in H.
Qed.

Lemma matches_lit s : matches (lit s) (js s).
Proof.
  unfold lit. induction (js s) as [| c l IH]; simpl; [constructor |].
  apply (MSeq _ _ [c] l); [| done]. constructor. apply N.eqb_refl.
Qed.

Lemma matches_star_class p s : forallb p s = true -> matches (Star (Class p)) s.
Proof.
  induction s as [| c s IH]; simpl; [constructor |].
  intros [Hc Hs]%andb_true_iff. apply (MStarApp _ [c] s); [by constructor | auto].
Qed.

(** Any arrangement of dashes, colons, delimiters and spaces between two
    delimiters is a separator row. *)
Lemma separator_any_arrangement l body r :
  blank l = true -> forallb separator_class body = true -> blank r = true ->
  test TABLE_SEPARATOR_REGEX (l ++ pipe :: body ++ pipe :: r) = true.
Proof.
  intros Hl Hb Hr. apply test_matches. unfold TABLE_SEPARATOR_REGEX.
  apply MSeq; [by apply matches_star_class |].
  apply (MSeq _ _ [pipe]); [by constructor |].
  apply MSeq; [by apply matches_star_class |].
  apply (MSeq _ _ [pipe]); [by constructor |].
  by apply matches_star_class.
Qed.

(** A cell that opens with a recognized keyword is a Liquid-only cell,
    whatever follows the keyword on the line. *)
Lemma liquid_cell_keyword_prefix kw rest :
  In kw recognized_keywords ->
  forallb (fun c => negb (is_line_terminator c)) rest = true ->
  test LIQUID_ONLY_CELL_REGEX (js "{% " ++ kw ++ rest ++ js "%}") = true.
Proof.
  intros Hkw Hrest. apply test_matches. unfold LIQUID_ONLY_CELL_REGEX.
  apply (MSeq _ _ []); [constructor |].
  apply (MSeq _ _ (js "{%") (js " " ++ kw ++ rest ++ js "%}")); [apply matches_lit |].
  apply (MSeq _ _ (js " ")); [by apply matches_star_class |].
  apply MSeq.
  { destruct Hkw as [<- | [<- | [<- | [<- | []]]]].
    - apply MAltL, matches_lit.
    - apply MAltR, MAltL, matches_lit.
    - apply MAltR, MAltR, MAltL, matches_lit.
    - apply MAltR, MAltR, MAltR, matches_lit. }
  apply MSeq; [by apply matches_star_class |].
  rewrite <- (app_nil_r (js "%}")). apply MSeq; [apply matches_lit | constructor].
Qed.

Lemma test_separator_nonempty s :
  test TABLE_SEPARATOR_REGEX s = true -> is_empty s = false.
Proof. by destruct s. Qed.

End RowFacts.

(** ** The loop *)

Section LoopFacts.

Context {Range : Type}.
Variable getRange : jsstring -> jsstring -> Range.

Import Spec StringFacts CellFacts RowFacts.

Lemma step_outside lines i line st :
  inTable st = false ->
  step getRange lines i line st =
    if test TABLE_ROW_REGEX line && nextLine_is_separator lines i
    then Normal ({| inTable := true;
                    expectedColumnCount := Some (countColumns_spec line);
                    tableStartLine := Some (i + 1)%nat;
                    headerRow := Some line |}, [])
    else Normal (st, []).
Proof.
  intros Hst. unfold step. rewrite Hst, countColumns_spec_eq. cbn [negb andb bind].
  by destruct (test TABLE_ROW_REGEX line && nextLine_is_separator lines i).
Qed.

Lemma step_inside lines i line st :
  inTable st = true ->
  step getRange lines i line st =
    if negb (test TABLE_ROW_REGEX line) then Normal (initial, [])
    else if test TABLE_SEPARATOR_REGEX line || isLiquidOnlyRow line then Normal (st, [])
    else if strict_ne (countColumns_spec line) (expectedColumnCount st) then
      Normal (st, [ {| lineNumber := (i + 1)%nat;
                       detail := errorMessage (countColumns_spec line) (expectedColumnCount st);
                       context := line;
                       range := getRange line (trim line);
                       fixInfo := None |} ])
    else Normal (st, []).
Proof.
  intros Hst. unfold step. rewrite Hst, countColumns_spec_eq. cbn [negb andb bind].
  destruct (test TABLE_ROW_REGEX line); cbn [negb andb orb]; [| done].
  destruct (test TABLE_SEPARATOR_REGEX line); cbn [negb andb orb]; [done |].
  by destruct (isLiquidOnlyRow line).
Qed.

(** An iteration never throws. *)
Lemma step_total lines i line st : exists r, step getRange lines i line st = Normal r.
Proof.
  destruct (inTable st) eqn:Hst.
  - rewrite step_inside by done. repeat case_match; eauto.
  - rewrite step_outside by done. case_match; eauto.
Qed.

(** An error reported at index [i] carries line number [i + 1]. *)
Lemma step_lineNumber lines i line st r d :
  step getRange lines i line st = Normal r -> In d (snd r) -> lineNumber d = (i + 1)%nat.
Proof.
  destruct (inTable st) eqn:Hst.
  - rewrite step_inside by done.
    repeat case_match; intros [= <-]; simpl; intros []; by subst.
  - rewrite step_outside by done. case_match; by intros [= <-].
Qed.

(** No error is reported outside a region. *)
Lemma step_outside_quiet lines i line st r :
  inTable st = false -> step getRange lines i line st = Normal r -> snd r = [].
Proof.
  intros Hst. rewrite step_outside by done. case_match; by intros [= <-].
Qed.

Lemma step_well_formed lines i line st r :
  well_formed st -> step getRange lines i line st = Normal r -> well_formed (fst r).
Proof.
  intros Hwf. destruct (inTable st) eqn:Hst.
  - rewrite step_inside by done.
    repeat case_match; intros [= <-]; simpl; try done.
  - rewrite step_outside by done.
    case_match; intros [= <-]; simpl; [| done]. intros _. eauto.
Qed.

Lemma loop_app lines i a b st :
  loop getRange lines i (a ++ b) st =
    let* r := loop getRange lines i a st in
    let* r' := loop getRange lines (i + length a)%nat b (fst r) in
    Normal (fst r', snd r ++ snd r').
Proof.
  revert i st. induction a as [| line a IH]; intros i st.
  - simpl. rewrite Nat.add_0_r. by destruct (loop getRange lines i b st) as [[] |].
  - cbn [app loop length]. destruct (step_total lines i line st) as [r ->].
    cbn [bind]. rewrite IH.
    replace (S i + length a)%nat with (i + S (length a))%nat by lia.
    destruct (loop getRange lines (S i) a (fst r)) as [ra |]; cbn [bind fst snd]; [| done].
    destruct (loop getRange lines (i + S (length a)) b (fst ra)) as [rb |];
      cbn [bind fst snd]; [| done].
    by rewrite app_assoc.
Qed.

(** The loop never throws. *)
Lemma loop_total lines i todo st : exists r, loop getRange lines i todo st = Normal r.
Proof.
  revert i st. induction todo as [| line todo IH]; intros i st; simpl; [eauto |].
  destruct (step_total lines i line st) as [r ->]. cbn [bind].
  destruct (IH (S i) (fst r)) as [r' ->]. cbn [bind]. eauto.
Qed.

(** Errors reported while visiting [todo] from index [i] lie on those lines. *)
Lemma loop_lineNumber lines i todo st r d :
  loop getRange lines i todo st = Normal r -> In d (snd r) ->
  (i < lineNumber d <= i + length todo)%nat.
Proof.
  revert i st r. induction todo as [| line todo IH]; intros i st r; simpl.
  - by intros [= <-].
  - destruct (step_total lines i line st) as [r1 H1]. rewrite H1. cbn [bind].
    destruct (loop_total lines (S i) todo (fst r1)) as [r2 H2]. rewrite H2. cbn [bind].
    intros [= <-]. cbn [snd]. rewrite in_app_iff. intros [Hd | Hd].
    + apply (step_lineNumber _ _ _ _ _ _ H1) in Hd. lia.
    + apply (IH _ _ _ H2) in Hd. lia.
Qed.

Lemma loop_well_formed lines i todo st r :
  well_formed st -> loop getRange lines i todo st = Normal r -> well_formed (fst r).
Proof.
  revert i st r. induction todo as [| line todo IH]; intros i st r Hwf; simpl.
  - by intros [= <-].
  - destruct (step_total lines i line st) as [r1 H1]. rewrite H1. cbn [bind].
    destruct (loop_total lines (S i) todo (fst r1)) as [r2 H2]. rewrite H2. cbn [bind].
    intros [= <-]. cbn [fst]. eapply IH; [| done]. by eapply step_well_formed.
Qed.

End LoopFacts.

(** * The column counter *)

Section Counter.

Import Spec StringFacts CellFacts.

(** C7. [countColumns] returns 0 for a row that is empty or delimiter-free
    after trimming; otherwise it is the count of the specification: the
    trimmed row is split on the delimiter, the first piece is dropped iff it
    is blank, the last piece is dropped iff it is blank, and what remains is
    counted.  A row with neither a leading nor a trailing delimiter keeps
    every piece, and ["| a | b |"] counts 2. *)
Theorem countColumns_follows_spec :
  (forall row,
     countColumns row = Normal (countColumns_spec row)
     /\ (is_empty (trim row) = true \/ includes (trim row) pipe = false ->
         countColumns row = Normal 0%Z)
     /\ (is_empty (trim row) = false -> includes (trim row) pipe = true ->
         countColumns row =
           Normal (Z.of_nat (length (drop_last_if_blank
                                       (drop_first_if_blank (split pipe (trim row)))))))
     /\ (includes (trim row) pipe = true ->
         head (trim row) <> Some pipe -> last (trim row) <> Some pipe ->
         countColumns row = Normal (Z.of_nat (length (split pipe (trim row))))))
  /\ countColumns (js "| a | b |") = Normal 2%Z.
Proof.
  split; [| done]. intros row. split; [apply countColumns_spec_eq |].
  rewrite countColumns_spec_eq. unfold countColumns_spec.
  split; [| split].
  - intros [-> | ->]; [done | by rewrite orb_true_r].
  - by intros -> ->.
  - intros Hinc Hhd Hlast. rewrite Hinc.
    destruct (trim_spec row) as (_ & _ & _ & _ & _ & Hm).
    destruct Hm as [Hm | (c & m & m' & d & Hc & Hsc & Hd & Hsd)];
      [by rewrite Hm in Hinc |].
    rewrite Hc. cbn [is_empty orb negb]. rewrite <- Hc. do 2 f_equal.
    assert (c <> pipe) as Hcp by (intros ->; by rewrite Hc in Hhd).
    assert (d <> pipe) as Hdp by (intros ->; by rewrite Hd, last_snoc in Hlast).
    assert (drop_first_if_blank (split pipe (trim row)) = split pipe (trim row)) as ->.
    { rewrite Hc. destruct (split_cons_ne pipe c m Hcp) as (p & ps & ->).
      unfold drop_first_if_blank, blank. simpl. by rewrite Hsc. }
    rewrite Hd. destruct (split_snoc_ne pipe d m' Hdp) as (ps & p & ->).
    unfold drop_last_if_blank. rewrite last_snoc, blank_app. unfold blank at 2.
    simpl. by rewrite Hsd, andb_false_r.
Qed.

(** C8. On a row with a delimiter, the cells [isLiquidOnlyRow] keeps with its
    index filter are the cells [countColumns] is left with after its shift
    and pop. *)
Theorem filteredCells_is_discard_ends row :
  includes row pipe = true ->
  discard_ends (split pipe (trim row)) = Normal (filteredCells (split pipe (trim row))).
Proof.
  intros H. rewrite discard_ends_spec, filteredCells_spec; [done |].
  apply split_length_includes. by rewrite includes_trim.
Qed.

End Counter.

(** * The scanner *)

Section ScannerFacts.

Context {Range Value : Type}.
Variable getRange : jsstring -> jsstring -> Range.
Variable ToBoolean : Value -> bool.
Variable frontmatter : jsstring -> FrontMatter Value.

Import Spec StringFacts CellFacts RowFacts RegExpFacts.

Lemma filter_none {A} (P : A -> Prop) `{forall x, Decision (P x)} (l : list A) :
  (forall x, In x l -> ~ P x) -> filter P l = [].
Proof.
  induction l as [| x l IH]; intros Hl; [done |].
  rewrite filter_cons_False by (apply Hl; by left).
  apply IH. intros y Hy. apply Hl. by right.
Qed.

(** The scan seen from line index [i]: the state on reaching it, what its
    iteration does, and where its errors sit among all the errors. *)
Lemma scan_at lines i line :
  lines !! i = Some line ->
  exists st r before after,
    state_at getRange lines i = Normal st /\ well_formed st
    /\ step getRange lines i line st = Normal r
    /\ state_at getRange lines (S i) = Normal (fst r)
    /\ scan getRange lines = Normal (before ++ snd r ++ after)
    /\ (forall d, In d before -> (lineNumber d <= i)%nat)
    /\ (forall d, In d after -> (S i < lineNumber d)%nat).
Proof.
  intros Hi.
  assert (length (take i lines) = i) as Hlen
    by (apply length_take_le, Nat.lt_le_incl; by eapply lookup_lt_Some).
  destruct (loop_total getRange lines 0 (take i lines) initial) as [r0 H0].
  destruct (step_total getRange lines i line (fst r0)) as [r H1].
  destruct (loop_total getRange lines (S i) (drop (S i) lines) (fst r)) as [r2 H2].
  exists (fst r0), r, (snd r0), (snd r2).
  split; [unfold state_at; by rewrite H0 |].
  split; [eapply loop_well_formed; [| done]; by intros [=] |].
  split; [done |].
  split; [| split; [| split]].
  - unfold state_at. rewrite (take_S_r _ _ _ Hi), loop_app, H0. cbn [bind].
    rewrite Hlen. simpl. by rewrite H1.
  - unfold scan.
    rewrite <- (take_drop_middle lines i line Hi) at 2.
    rewrite loop_app, H0. cbn [bind]. rewrite Hlen. simpl.
    rewrite H1. cbn [bind]. by rewrite H2.
  - intros d Hd. apply (loop_lineNumber _ _ _ _ _ _ _ H0) in Hd. lia.
  - intros d Hd. apply (loop_lineNumber _ _ _ _ _ _ _ H2) in Hd. lia.
Qed.

(** A line whose iteration reports nothing has no error in the output. *)
Lemma scan_quiet_at lines i line :
  lines !! i = Some line ->
  (forall st r, well_formed st -> step getRange lines i line st = Normal r -> snd r = []) ->
  exists ds, scan getRange lines = Normal ds
             /\ forall d, In d ds -> lineNumber d <> S i.
Proof.
  intros Hi Hq.
  destruct (scan_at lines i line Hi) as (st & r & before & after & _ & Hwf & Hr & _ & Hs & Hb & Ha).
  rewrite (Hq _ _ Hwf Hr) in Hs. exists (before ++ [] ++ after). split; [done |].
  intros d [Hd | Hd]%in_app_iff; [apply Hb in Hd | apply Ha in Hd]; lia.
Qed.

(** The rule reports nothing, or what the scan of its lines reports. *)
Lemma tableColumnIntegrity_cases params :
  tableColumnIntegrity getRange ToBoolean frontmatter params = Normal []
  \/ tableColumnIntegrity getRange ToBoolean frontmatter params = scan getRange (lines params).
Proof. unfold tableColumnIntegrity. case_match; auto. Qed.

Lemma rule_quiet_at params i line :
  lines params !! i = Some line ->
  (forall st r, well_formed st ->
                step getRange (lines params) i line st = Normal r -> snd r = []) ->
  exists ds, tableColumnIntegrity getRange ToBoolean frontmatter params = Normal ds
             /\ forall d, In d ds -> lineNumber d <> S i.
Proof.
  intros Hi Hq. destruct (tableColumnIntegrity_cases params) as [-> | ->].
  - by exists [].
  - by apply scan_quiet_at with line.
Qed.

(** C1. A line reached inside an open region that is a table row, not a
    separator row and not Liquid-only, and whose column count differs from
    the expected one, gets exactly one error, with the text of the source:
    columns to add to the header when it has more, columns missing from the
    row when it has fewer. *)
Theorem mismatch_reported_once lines i line st expected actual :
  lines !! i = Some line ->
  state_at getRange lines i = Normal st ->
  inTable st = true ->
  expectedColumnCount st = Some expected ->
  test TABLE_ROW_REGEX line = true ->
  test TABLE_SEPARATOR_REGEX line = false ->
  isLiquidOnlyRow line = false ->
  countColumns line = Normal actual ->
  actual <> expected ->
  exists ds d,
    scan getRange lines = Normal ds
    /\ filter (fun d => lineNumber d = S i) ds = [d]
    /\ context d = line /\ fixInfo d = None
    /\ ((expected < actual)%Z ->
        detail d =
          js "Table row has " ++ number_toString actual
          ++ js " columns but header has " ++ number_toString expected
          ++ js ". Add " ++ number_toString (actual - expected)
          ++ js " more column(s) to the header row to match this row.")
    /\ ((actual < expected)%Z ->
        detail d =
          js "Table row has " ++ number_toString actual
          ++ js " columns but header has " ++ number_toString expected
          ++ js ". Add " ++ number_toString (expected - actual)
          ++ js " missing column(s) to this row.").
Proof.
  intros Hi Hst Hin Hexp Hrow Hsep Hliq Hact Hne.
  destruct (scan_at lines i line Hi) as (st' & r & before & after & Hst' & _ & Hr & _ & Hs & Hb & Ha).
  rewrite Hst in Hst'. injection Hst' as <-.
  rewrite step_inside in Hr by done.
  rewrite countColumns_spec_eq in Hact. injection Hact as Hact.
  rewrite Hrow, Hsep, Hliq, Hexp, Hact in Hr. cbn [negb orb strict_ne] in Hr.
  apply Z.eqb_neq in Hne. rewrite Hne in Hr. cbn [negb] in Hr.
  injection Hr as <-. cbn [snd] in Hs.
  match type of Hs with
  | _ = Normal (_ ++ [?d] ++ _) => exists (before ++ [d] ++ after), d
  end.
  split; [exact Hs |].
  split; [| split; [done | split; [done |]]].
  - rewrite !filter_app.
    rewrite (filter_none _ before) by (intros d Hd%Hb; lia).
    rewrite (filter_none _ after) by (intros d Hd%Ha; lia).
    rewrite filter_cons_True by (simpl; lia). done.
  - cbn [detail]. unfold errorMessage, ToNumber, ToString. split; intros Hlt.
    + apply Z.ltb_lt in Hlt. by rewrite Hlt.
    + assert ((expected <? actual)%Z = false) as -> by (apply Z.ltb_ge; lia). done.
Qed.

Lemma liquid_only_quiet params i line :
  lines params !! i = Some line ->
  isLiquidOnlyRow line = true ->
  exists ds, tableColumnIntegrity getRange ToBoolean frontmatter params = Normal ds
             /\ forall d, In d ds -> lineNumber d <> S i.
Proof.
  intros Hi Hliq.
  apply rule_quiet_at with line; [done |]. intros st r _.
  destruct (inTable st) eqn:Hin; [| by apply step_outside_quiet].
  rewrite step_inside, Hliq, orb_true_r by done.
  case_match; by intros [= <-].
Qed.

(** C4. No error is ever reported at a Liquid-only line, whatever its column
    count and whatever the open region expects; the line
    [{% ifversion fpt %}|{% endif %}] is Liquid-only. *)
Theorem liquid_only_row_exempt :
  (forall params i line,
     lines params !! i = Some line ->
     isLiquidOnlyRow line = true ->
     exists ds, tableColumnIntegrity getRange ToBoolean frontmatter params = Normal ds
                /\ forall d, In d ds -> lineNumber d <> S i)
  /\ isLiquidOnlyRow (js "{% ifversion fpt %}|{% endif %}") = true.
Proof.
  split; [apply liquid_only_quiet | done].
Qed.

(** C5. No error is ever reported at a separator row, be it the one that
    opens a region or a later one. *)
Theorem separator_row_never_reported params i line :
  lines params !! i = Some line ->
  test TABLE_SEPARATOR_REGEX line = true ->
  exists ds, tableColumnIntegrity getRange ToBoolean frontmatter params = Normal ds
             /\ forall d, In d ds -> lineNumber d <> S i.
Proof.
  intros Hi Hsep.
  apply rule_quiet_at with line; [done |]. intros st r _.
  destruct (inTable st) eqn:Hin; [| by apply step_outside_quiet].
  rewrite step_inside, Hsep by done. cbn [orb].
  case_match; by intros [= <-].
Qed.

(** C6. A document whose front matter has a truthy [autogenerated] value
    gets no error, whatever its lines. *)
Theorem autogenerated_skipped params fm v :
  data (frontmatter (join [0x0A] (frontMatterLines params))) = Some fm ->
  fm !! "autogenerated"%string = Some v ->
  ToBoolean v = true ->
  tableColumnIntegrity getRange ToBoolean frontmatter params = Normal [].
Proof.
  intros Hfm Hv Ht. unfold tableColumnIntegrity, autogenerated.
  by rewrite Hfm, Hv, Ht.
Qed.

(** Lines that are not table rows leave a closed scanner closed. *)
Lemma loop_outside_no_rows lines i todo st :
  inTable st = false ->
  (forall line, In line todo -> test TABLE_ROW_REGEX line = false) ->
  loop getRange lines i todo st = Normal (st, []).
Proof.
  intros Hst. revert i. induction todo as [| line todo IH]; intros i Hrows; [done |].
  cbn [loop]. rewrite step_outside, (Hrows line) by (done || by left).
  cbn [andb bind fst snd]. rewrite IH; [done |]. intros l Hl. apply Hrows. by right.
Qed.

(** One iteration on a row with [n] columns keeps a state that expects [n]
    and reports nothing. *)
Lemma step_uniform lines n i line st :
  expects n st ->
  (test TABLE_ROW_REGEX line = true -> countColumns_spec line = n) ->
  exists st', step getRange lines i line st = Normal (st', []) /\ expects n st'.
Proof.
  intros Hst Hline. destruct (inTable st) eqn:Hin.
  - rewrite step_inside by done.
    destruct (test TABLE_ROW_REGEX line); cbn [negb]; [| by exists initial].
    destruct (_ || _); [by exists st |].
    rewrite (Hst Hin), Hline by done. cbn [strict_ne]. rewrite Z.eqb_refl. by exists st.
  - rewrite step_outside by done.
    destruct (test TABLE_ROW_REGEX line); cbn [andb]; [| by exists st].
    destruct (nextLine_is_separator lines i); [| by exists st].
    eexists. split; [done |]. intros _. simpl. by rewrite Hline.
Qed.

Lemma loop_uniform lines n i todo st :
  expects n st ->
  (forall line, In line todo -> test TABLE_ROW_REGEX line = true -> countColumns_spec line = n) ->
  exists st', loop getRange lines i todo st = Normal (st', []) /\ expects n st'.
Proof.
  revert i st. induction todo as [| line todo IH]; intros i st Hst Hrows.
  - by exists st.
  - destruct (step_uniform lines n i line st Hst) as (st1 & H1 & Hst1);
      [apply Hrows; by left |].
    destruct (IH (S i) st1 Hst1) as (st2 & H2 & Hst2);
      [intros l Hl; apply Hrows; by right |].
    exists st2. cbn [loop]. rewrite H1. cbn [bind fst snd]. by rewrite H2.
Qed.

(** C2. A document made of a header row, a separator row and any number of
    data rows with the column count of the header, with no table row before
    or after, gets no error: from the scan, and so from the rule whether or
    not the front matter is consulted. *)
Theorem well_formed_table_quiet params pre header separator rows post :
  lines params = pre ++ header :: separator :: rows ++ post ->
  Forall (fun line => test TABLE_ROW_REGEX line = false) pre ->
  Forall (fun line => test TABLE_ROW_REGEX line = false) post ->
  test TABLE_ROW_REGEX header = true ->
  test TABLE_SEPARATOR_REGEX separator = true ->
  Forall (fun row => test TABLE_ROW_REGEX row = true
                     /\ countColumns row = countColumns header) rows ->
  scan getRange (lines params) = Normal []
  /\ tableColumnIntegrity getRange ToBoolean frontmatter params = Normal [].
Proof.
  intros Hlines Hpre Hpost Hheader Hsep Hrows.
  assert (scan getRange (lines params) = Normal []) as Hscan.
  { unfold scan. rewrite Hlines at 2.
    rewrite loop_app, loop_outside_no_rows;
      [| done | by intros l Hl%list_elem_of_In%(proj1 (Forall_forall _ _) Hpre)].
    cbn [bind fst snd loop]. rewrite Nat.add_0_l.
    rewrite step_outside, Hheader by done.
    assert (nextLine_is_separator (lines params) (length pre) = true) as ->.
    { unfold nextLine_is_separator. rewrite Hlines.
      rewrite lookup_app_r by lia.
      replace (length pre + 1 - length pre)%nat with 1%nat by lia. simpl.
      by rewrite Hsep, (test_separator_nonempty _ Hsep). }
    cbn [andb bind fst snd].
    set (n := countColumns_spec header).
    set (st := {| inTable := true; expectedColumnCount := Some n;
                  tableStartLine := Some (length pre + 1)%nat;
                  headerRow := Some header |}).
    assert (exists st1, step getRange (lines params) (S (length pre)) separator st
                        = Normal (st1, []) /\ expects n st1) as (st1 & -> & Hst1).
    { rewrite step_inside, Hsep by done. cbn [orb].
      destruct (test TABLE_ROW_REGEX separator); [by exists st | by exists initial]. }
    cbn [bind fst snd].
    destruct (loop_uniform (lines params) n (S (S (length pre))) (rows ++ post) st1 Hst1)
      as (st2 & -> & _); [| done].
    intros l [Hl | Hl]%in_app_iff Hrow.
    - apply list_elem_of_In, (proj1 (Forall_forall _ _) Hrows) in Hl as [_ Hl].
      rewrite !countColumns_spec_eq in Hl. by injection Hl.
    - apply list_elem_of_In, (proj1 (Forall_forall _ _) Hpost) in Hl. congruence. }
  split; [done |].
  destruct (tableColumnIntegrity_cases params) as [-> | ->]; done.
Qed.

(** C9, as the code has it.  The rule never throws; a delimiter-free row
    counts 0 columns; met inside an open region, such a row is not a table
    row, so it closes the region, is not compared with the expected count
    and gets no error. *)
Theorem delimiter_free_row_closes_region :
  (forall params,
     exists ds, tableColumnIntegrity getRange ToBoolean frontmatter params = Normal ds)
  /\ (forall row, includes row pipe = false -> countColumns row = Normal 0%Z)
  /\ (forall lines i line st,
        lines !! i = Some line ->
        state_at getRange lines i = Normal st ->
        inTable st = true ->
        includes line pipe = false ->
        step getRange lines i line st = Normal (initial, [])
        /\ state_at getRange lines (S i) = Normal initial
        /\ exists ds, scan getRange lines = Normal ds
                      /\ forall d, In d ds -> lineNumber d <> S i).
Proof.
  split; [| split].
  - intros params. destruct (tableColumnIntegrity_cases params) as [-> | ->]; [eauto |].
    unfold scan. destruct (loop_total getRange (lines params) 0 (lines params) initial) as [r ->].
    simpl. eauto.
  - apply countColumns_no_pipe.
  - intros lines i line st Hi Hst Hin Hfree.
    assert (step getRange lines i line st = Normal (initial, [])) as Hstep
      by (by rewrite step_inside, test_row_no_pipe).
    destruct (scan_at lines i line Hi)
      as (st' & r & before & after & Hst' & _ & Hr & Hnext & Hs & Hb & Ha).
    rewrite Hst in Hst'. injection Hst' as <-.
    rewrite Hstep in Hr. injection Hr as <-.
    split; [done | split; [done |]].
    eexists. split; [exact Hs |].
    intros d [Hd | Hd]%in_app_iff; [apply Hb in Hd | apply Ha in Hd]; lia.
Qed.

(** A closed scanner reports nothing up to and including the first line
    that opens a region. *)
Lemma loop_quiet_until_open lines i todo st :
  inTable st = false ->
  (forall j line, todo !! j = Some line -> (S j < length todo)%nat ->
                  test TABLE_ROW_REGEX line && nextLine_is_separator lines (i + j) = false) ->
  exists st', loop getRange lines i todo st = Normal (st', []).
Proof.
  intros Hst. revert i. induction todo as [| line todo IH]; intros i Hq; [by exists st |].
  cbn [loop]. rewrite step_outside by done.
  destruct todo as [| line2 todo].
  - case_match; cbn [bind loop fst snd]; eauto.
  - specialize (Hq 0%nat line) as Hq0. rewrite Nat.add_0_r in Hq0.
    rewrite Hq0 by (done || simpl; lia). cbn [bind fst snd].
    destruct (IH (S i)) as [st' ->]; [| cbn [bind fst snd]; eauto].
    intros j l Hj Hlen. replace (S i + j)%nat with (i + S j)%nat by lia.
    apply Hq; [done | simpl in *; lia].
Qed.

(** The scan cut in three: the lines before index [i], the next [n] lines,
    and the rest. *)
Lemma scan_segment lines i n :
  (i <= length lines)%nat ->
  exists r0 r1 r2,
    loop getRange lines 0 (take i lines) initial = Normal r0
    /\ loop getRange lines i (take n (drop i lines)) (fst r0) = Normal r1
    /\ loop getRange lines (i + length (take n (drop i lines)))
                     (drop n (drop i lines)) (fst r1) = Normal r2
    /\ scan getRange lines = Normal (snd r0 ++ snd r1 ++ snd r2).
Proof.
  intros Hi.
  destruct (loop_total getRange lines 0 (take i lines) initial) as [r0 H0].
  destruct (loop_total getRange lines i (take n (drop i lines)) (fst r0)) as [r1 H1].
  destruct (loop_total getRange lines (i + length (take n (drop i lines)))
              (drop n (drop i lines)) (fst r1)) as [r2 H2].
  exists r0, r1, r2. split; [done | split; [done | split; [done |]]].
  unfold scan.
  rewrite <- (take_drop i lines) at 2.
  rewrite <- (take_drop n (drop i lines)) at 1.
  rewrite loop_app, H0. cbn [bind]. rewrite length_take_le by done. simpl.
  rewrite loop_app, H1. cbn [bind]. rewrite H2. cbn [bind fst snd].
  by rewrite app_assoc.
Qed.

(** C3. A table row whose next line is missing or is not a separator row
    does not take a closed scanner inside a region, and from a closed
    scanner no error is reported on that line or on any later line up to and
    including the first line where a header and separator pair starts. *)
Theorem no_region_without_separator lines i line :
  lines !! i = Some line ->
  test TABLE_ROW_REGEX line = true ->
  match lines !! S i with
  | Some nextLine => test TABLE_SEPARATOR_REGEX nextLine = false
  | None => True
  end ->
  exists st st' ds,
    state_at getRange lines i = Normal st
    /\ state_at getRange lines (S i) = Normal st'
    /\ scan getRange lines = Normal ds
    /\ (inTable st = false -> inTable st' = false)
    /\ (inTable st = false ->
        forall k, (forall j, (i < j < k)%nat -> opens lines j = false) ->
                  forall d, In d ds -> ~ (i < lineNumber d <= S k)%nat).
Proof.
  intros Hi Hrow Hnext.
  assert (nextLine_is_separator lines i = false) as Hns.
  { unfold nextLine_is_separator. replace (i + 1)%nat with (S i) by lia.
    destruct (lines !! S i); [by rewrite Hnext, andb_false_r | done]. }
  destruct (scan_at lines i line Hi)
    as (st & r & before & after & Hst & _ & Hr & Hst' & Hs & _ & _).
  exists st, (fst r), (before ++ snd r ++ after).
  split; [done | split; [done | split; [done |]]]. split.
  - intros Hout. rewrite step_outside, Hns, andb_false_r in Hr by done.
    by injection Hr as <-.
  - intros Hout k Hk d Hd [Hlo Hhi].
    assert (i <= length lines)%nat as Hle
      by (apply Nat.lt_le_incl; by eapply lookup_lt_Some).
    destruct (scan_segment lines i (S k - i) Hle) as (r0 & r1 & r2 & H0 & H1 & H2 & Hs').
    rewrite Hs in Hs'. injection Hs' as Hs'. rewrite Hs' in Hd. clear Hs Hs'.
    unfold state_at in Hst. rewrite H0 in Hst. injection Hst as Hst.
    destruct (loop_quiet_until_open lines i (take (S k - i) (drop i lines)) (fst r0))
      as [st1 H1']; [congruence | |].
    { intros j l [Hl Hj]%lookup_take_Some Hlen. rewrite lookup_drop in Hl.
      destruct j as [| j].
      - rewrite Nat.add_0_r in *. by rewrite Hns, andb_false_r.
      - rewrite length_take in Hlen.
        specialize (Hk (i + S j)%nat). unfold opens in Hk. rewrite Hl in Hk.
        apply Hk. lia. }
    rewrite H1' in H1. injection H1 as <-. cbn [snd app] in Hd.
    apply in_app_iff in Hd as [Hd | Hd].
    + apply (loop_lineNumber _ _ _ _ _ _ _ H0) in Hd.
      rewrite length_take in Hd. lia.
    + apply (loop_lineNumber _ _ _ _ _ _ _ H2) in Hd.
      rewrite length_take, !length_drop in Hd. lia.
Qed.

(** C10. The cell pattern takes a recognized keyword as a prefix: a cell
    [{% kw... %}] is accepted whatever follows the keyword, so cells whose
    keyword is [elseware] or [ifversioned], neither of them recognized, are
    Liquid-only cells, a row made of them is a Liquid-only row, and no error
    is ever reported at such a row. *)
Theorem keyword_prefix_accepted :
  (forall kw rest,
     In kw recognized_keywords ->
     forallb (fun c => negb (is_line_terminator c)) rest = true ->
     test LIQUID_ONLY_CELL_REGEX (js "{% " ++ kw ++ rest ++ js "%}") = true)
  /\ (keyword (js " {% elseware x %} ") = js "elseware"
      /\ ~ In (js "elseware") recognized_keywords
      /\ test LIQUID_ONLY_CELL_REGEX (js " {% elseware x %} ") = true)
  /\ (keyword (js " {% ifversioned y %} ") = js "ifversioned"
      /\ ~ In (js "ifversioned") recognized_keywords
      /\ test LIQUID_ONLY_CELL_REGEX (js " {% ifversioned y %} ") = true)
  /\ isLiquidOnlyRow (js "| {% elseware x %} | {% ifversioned y %} |") = true
  /\ (forall params i,
        lines params !! i = Some (js "| {% elseware x %} | {% ifversioned y %} |") ->
        exists ds, tableColumnIntegrity getRange ToBoolean frontmatter params = Normal ds
                   /\ forall d, In d ds -> lineNumber d <> S i).
Proof.
  split; [apply liquid_cell_keyword_prefix |].
  split; [split; [done | split; [| done]] |].
  { intros [H | [H | [H | [H | []]]]]; discriminate H. }
  split; [split; [done | split; [| done]] |].
  { intros [H | [H | [H | [H | []]]]]; discriminate H. }
  split; [done |].
  intros params i Hi. by apply liquid_only_quiet with (1 := Hi).
Qed.

End ScannerFacts.

(** * Sample runs *)

Module Witness.

Import Sample.

Local Open Scope nat_scope.

Lemma mismatch_reported_once_witness :
  exists ds d,
    scan getRange three_columns = Normal ds
    /\ filter (fun d => lineNumber d = 3%nat) ds = [d]
    /\ detail d =
         js "Table row has 3 columns but header has 2. Add 1 more column(s) to the header row to match this row.".
Proof.
  destruct (mismatch_reported_once getRange three_columns 2 (js "| a | b | c |")
              inside_sample 2%Z 3%Z) as (ds & d & Hs & Hf & _ & _ & Hmore & _);
    try reflexivity; [discriminate |].
  exists ds, d. split; [exact Hs |]. split; [exact Hf |].
  rewrite Hmore by reflexivity. reflexivity.
Defined.

Lemma well_formed_table_quiet_witness :
  scan getRange well_formed_table = Normal []
  /\ tableColumnIntegrity getRange ToBoolean frontmatter
       {| frontMatterLines := []; lines := well_formed_table |} = Normal [].
Proof.
  apply (well_formed_table_quiet getRange ToBoolean frontmatter
           {| frontMatterLines := []; lines := well_formed_table |}
           [js "Intro"] header separator [js "| a | b |"; js "| c | d |"]
           [js ""; js "Outro"]);
    try reflexivity;
    repeat (constructor; [first [reflexivity | split; reflexivity] |]);
    constructor.
Defined.

Lemma no_region_without_separator_witness :
  exists st st' ds,
    state_at getRange no_separator 0 = Normal st
    /\ state_at getRange no_separator 1 = Normal st'
    /\ scan getRange no_separator = Normal ds
    /\ (inTable st = false -> inTable st' = false)
    /\ (inTable st = false ->
        forall k, (forall j, (0 < j < k)%nat -> opens no_separator j = false) ->
                  forall d, In d ds -> ~ (0 < lineNumber d <= S k)%nat).
Proof.
  apply (no_region_without_separator getRange no_separator 0 header); reflexivity.
Defined.

Lemma liquid_only_row_exempt_witness :
  exists ds,
    tableColumnIntegrity getRange ToBoolean frontmatter
      {| frontMatterLines := []; lines := liquid_row |} = Normal ds
    /\ forall d, In d ds -> lineNumber d <> 3%nat.
Proof.
  apply (proj1 (liquid_only_row_exempt getRange ToBoolean frontmatter)
           {| frontMatterLines := []; lines := liquid_row |} 2
           (js "| {% ifversion fpt %} | {% endif %} | {% else %} |"));
    reflexivity.
Defined.

Lemma separator_row_never_reported_witness :
  exists ds,
    tableColumnIntegrity getRange ToBoolean frontmatter
      {| frontMatterLines := []; lines := later_separator |} = Normal ds
    /\ forall d, In d ds -> lineNumber d <> 4%nat.
Proof.
  apply (separator_row_never_reported getRange ToBoolean frontmatter
           {| frontMatterLines := []; lines := later_separator |} 3 (js "|:--|"));
    reflexivity.
Defined.

Lemma autogenerated_skipped_witness :
  tableColumnIntegrity getRange ToBoolean frontmatter autogenerated_doc = Normal [].
Proof.
  apply (autogenerated_skipped getRange ToBoolean frontmatter autogenerated_doc
           {[ "autogenerated"%string := js "rest" ]} (js "rest"));
    reflexivity.
Defined.

Lemma countColumns_follows_spec_witness :
  countColumns (js "a | b") = Normal 2%Z.
Proof.
  destruct (proj1 countColumns_follows_spec (js "a | b")) as (_ & _ & _ & H).
  apply H; [reflexivity | discriminate | discriminate].
Defined.

Lemma filteredCells_is_discard_ends_witness :
  discard_ends (split pipe (trim (js "| a | b |")))
  = Normal (filteredCells (split pipe (trim (js "| a | b |")))).
Proof. apply filteredCells_is_discard_ends. reflexivity. Defined.

Lemma delimiter_free_row_closes_region_witness :
  step getRange delimiter_free 2 (js "abc") inside_sample = Normal (initial, [])
  /\ state_at getRange delimiter_free 3 = Normal initial
  /\ exists ds, scan getRange delimiter_free = Normal ds
                /\ forall d, In d ds -> lineNumber d <> 3%nat.
Proof.
  apply (proj2 (proj2 (delimiter_free_row_closes_region getRange ToBoolean frontmatter)));
    reflexivity.
Defined.

Lemma keyword_prefix_accepted_witness :
  test LIQUID_ONLY_CELL_REGEX (js "{% " ++ js "else" ++ js "ware x " ++ js "%}") = true.
Proof.
  apply (proj1 (keyword_prefix_accepted getRange ToBoolean frontmatter));
    [right; left; reflexivity | reflexivity].
Defined.

(** C9 as stated fails: in [delimiter_free] the line [abc] is reached inside
    an open region that expects 2 columns, it has no delimiter and counts 0
    columns, and the scan reports nothing at all. *)
Lemma delimiter_free_row_not_reported :
  state_at getRange delimiter_free 2 = Normal inside_sample
  /\ delimiter_free !! 2%nat = Some (js "abc")
  /\ includes (js "abc") pipe = false
  /\ countColumns (js "abc") = Normal 0%Z
  /\ scan getRange delimiter_free = Normal [].
Proof. repeat split. Qed.

(** The two examples of the specification. *)
Example three_columns_message :
  scan getRange three_columns =
    Normal [ {| lineNumber := 3;
                detail := js "Table row has 3 columns but header has 2. Add 1 more column(s) to the header row to match this row.";
                context := js "| a | b | c |";
                range := (1%nat, 13%nat);
                fixInfo := None |} ].
Proof. reflexivity. Qed.

Example one_column_message :
  scan getRange one_column =
    Normal [ {| lineNumber := 3;
                detail := js "Table row has 1 columns but header has 2. Add 1 missing column(s) to this row.";
                context := js "| a |";
                range := (1%nat, 5%nat);
                fixInfo := None |} ].
Proof. reflexivity. Qed.

End Witness.

(** * Further properties of the rule *)

(** ** What the three patterns accept *)

Module ShapeFacts.

Import Spec RegExpFacts StringFacts RowFacts.

Lemma matches_star_class_inv p s :
  matches (Star (Class p)) s -> forallb p s = true.
Proof.
  intros H. remember (Star (Class p)) as r eqn:Hr.
  induction H as [| | | | | | r0 s1 s2 H1 _ H2 IH2]; try done.
  injection Hr as ->. apply matches_class_inv in H1 as (c & -> & Hc).
  simpl. rewrite Hc. by apply IH2.
Qed.

Lemma matches_star_class_iff p s :
  matches (Star (Class p)) s <-> forallb p s = true.
Proof. split; [apply matches_star_class_inv | apply matches_star_class]. Qed.

Lemma matches_lit_inv str s : matches (lit str) s -> s = js str.
Proof.
  unfold lit. revert s. induction (js str) as [| c l IH]; intros s; simpl.
  - apply matches_eps_inv.
  - intros (s1 & s2 & -> & ->%matches_chr_inv & ->%IH)%matches_seq_inv. done.
Qed.

(** A line with the shape of a row pattern: spaces, a delimiter, a body of
    characters of one class, a delimiter, spaces. *)
Lemma matches_row_like body_class s :
  matches (Star space ⋅ Chr pipe ⋅ Star (Class body_class) ⋅ Chr pipe ⋅ Star space) s
  <-> exists l body r,
        s = l ++ pipe :: body ++ pipe :: r
        /\ blank l = true /\ forallb body_class body = true /\ blank r = true.
Proof.
  split.
  - intros (l & s1 & -> & Hl%matches_star_class_inv
            & (p1 & s2 & -> & ->%matches_chr_inv
               & (body & s3 & -> & Hb%matches_star_class_inv
                  & (p2 & r & -> & ->%matches_chr_inv & Hr%matches_star_class_inv
                    )%matches_seq_inv)%matches_seq_inv)%matches_seq_inv)%matches_seq_inv.
    by exists l, body, r.
  - intros (l & body & r & -> & Hl & Hb & Hr).
    apply MSeq; [by apply matches_star_class |].
    apply (MSeq _ _ [pipe]); [by constructor |].
    apply MSeq; [by apply matches_star_class |].
    apply (MSeq _ _ [pipe]); [by constructor |].
    by apply matches_star_class.
Qed.

(** X1. [TABLE_ROW_REGEX] accepts exactly the lines made of optional
    whitespace, a delimiter, any characters but line terminators, a second
    delimiter and optional whitespace. *)
Theorem table_row_shape s :
  test TABLE_ROW_REGEX s = true
  <-> exists l body r,
        s = l ++ pipe :: body ++ pipe :: r
        /\ blank l = true /\ forallb not_line_terminator body = true /\ blank r = true.
Proof. rewrite test_matches. apply matches_row_like. Qed.

(** X2. [TABLE_SEPARATOR_REGEX] accepts exactly the lines made of optional
    whitespace, a delimiter, any arrangement of whitespace, dashes, colons
    and delimiters, a last delimiter and optional whitespace. *)
Theorem separator_row_shape s :
  test TABLE_SEPARATOR_REGEX s = true
  <-> exists l body r,
        s = l ++ pipe :: body ++ pipe :: r
        /\ blank l = true
        /\ forallb (fun c => is_space c || (c =? 0x2D) || (c =? 0x3A) || (c =? pipe)) body = true
        /\ blank r = true.
Proof.
  rewrite test_matches. unfold TABLE_SEPARATOR_REGEX. rewrite matches_row_like.
  assert (forall body,
            forallb separator_class body
            = forallb (fun c => is_space c || (c =? 0x2D) || (c =? 0x3A) || (c =? pipe)) body) as E.
  { intros body. induction body as [| c body IH]; simpl; [done |].
    rewrite IH. f_equal. unfold separator_class.
    destruct (is_space c); [done |]. simpl. by rewrite orb_false_r. }
  by setoid_rewrite E.
Qed.

End ShapeFacts.

(** ** Whitespace around a line, and the cells of a table row *)

Module PaddingFacts.

Import Spec RegExpFacts StringFacts CellFacts RowFacts ShapeFacts.

Lemma is_space_pipe : is_space pipe = false.
Proof. reflexivity. Qed.

Lemma trimStart_blank_app l s : blank l = true -> trimStart (l ++ s) = trimStart s.
Proof.
  induction l as [| c l IH]; simpl; [done |].
  intros [-> Hl]%andb_true_iff. auto.
Qed.

Lemma trimEnd_app_blank s r : blank r = true -> trimEnd (s ++ r) = trimEnd s.
Proof.
  intros Hr. unfold trimEnd. rewrite rev_app_distr, trimStart_blank_app; [done |].
  by rewrite blank_rev.
Qed.

(** Whitespace added around a string is trimmed away with its own. *)
Lemma trim_pad l s r :
  blank l = true -> blank r = true -> trim (l ++ s ++ r) = trim s.
Proof.
  intros Hl Hr. unfold trim. rewrite trimStart_blank_app by done.
  destruct (trimStart_spec s) as (l' & Hs & Hl' & [Ht | (c & t & Ht & Hc)]).
  - rewrite Ht. rewrite trimStart_blank; [done |].
    rewrite Hs, Ht, app_nil_r, blank_app, Hl', Hr. done.
  - rewrite Hs at 1. rewrite <- app_assoc, trimStart_blank_app by done.
    rewrite Ht. simpl. rewrite Hc.
    by apply (trimEnd_app_blank (c :: t) r).
Qed.

(** A string that starts and ends with a non-space is its own trim. *)
Lemma trim_bounded c t d :
  is_space c = false -> is_space d = false -> trim (c :: t ++ [d]) = c :: t ++ [d].
Proof.
  intros Hc Hd. unfold trim. simpl. rewrite Hc. unfold trimEnd.
  change (c :: t ++ [d]) with ((c :: t) ++ [d]).
  rewrite rev_app_distr. simpl rev at 2. simpl app at 1. simpl trimStart.
  rewrite Hd. simpl. by rewrite rev_app_distr, rev_involutive.
Qed.

Lemma blank_prefix_pipe l x l1 y :
  blank l = true -> blank l1 = true -> l ++ x = l1 ++ pipe :: y ->
  exists l2, l1 = l ++ l2 /\ x = l2 ++ pipe :: y.
Proof.
  revert l1. induction l as [| c l IH]; intros l1 Hl Hl1 E; simpl in *.
  - by exists l1.
  - apply andb_true_iff in Hl as [Hc Hl]. destruct l1 as [| c1 l1]; simpl in *.
    + injection E as -> _. by rewrite is_space_pipe in Hc.
    + injection E as -> E. apply andb_true_iff in Hl1 as [_ Hl1].
      destruct (IH l1 Hl Hl1 E) as (l2 & -> & ->). by exists l2.
Qed.

Lemma blank_suffix_pipe r x r1 y :
  blank r = true -> blank r1 = true -> x ++ r = y ++ pipe :: r1 ->
  exists r2, r1 = r2 ++ r /\ x = y ++ pipe :: r2.
Proof.
  intros Hr Hr1 E. apply (f_equal (@rev char)) in E.
  rewrite rev_app_distr in E.
  replace (rev (y ++ pipe :: r1)) with (rev r1 ++ pipe :: rev y) in E
    by (rewrite rev_app_distr; simpl; by rewrite <- app_assoc).
  apply blank_prefix_pipe in E as (l2 & E1 & E2); [| by rewrite blank_rev ..].
  exists (rev l2). split.
  - rewrite <- (rev_involutive r1), E1, rev_app_distr. by rewrite rev_involutive.
  - rewrite <- (rev_involutive x), E2, rev_app_distr. simpl.
    by rewrite rev_involutive, <- app_assoc.
Qed.

Lemma matches_row_like_pad body_class l s r :
  blank l = true -> blank r = true ->
  matches (Star space ⋅ Chr pipe ⋅ Star (Class body_class) ⋅ Chr pipe ⋅ Star space)
          (l ++ s ++ r)
  <-> matches (Star space ⋅ Chr pipe ⋅ Star (Class body_class) ⋅ Chr pipe ⋅ Star space) s.
Proof.
  intros Hl Hr. rewrite !matches_row_like. split.
  - intros (l1 & body & r1 & E & Hl1 & Hb & Hr1).
    apply blank_prefix_pipe in E as (l2 & -> & E); [| done ..].
    change (l2 ++ pipe :: body ++ pipe :: r1)
      with (l2 ++ (pipe :: body) ++ pipe :: r1) in E.
    rewrite app_assoc in E.
    apply blank_suffix_pipe in E as (r2 & -> & ->); [| done ..].
    rewrite blank_app in Hl1, Hr1.
    apply andb_true_iff in Hl1 as [_ Hl2]. apply andb_true_iff in Hr1 as [Hr2 _].
    exists l2, body, r2. by rewrite <- app_assoc.
  - intros (l1 & body & r1 & -> & Hl1 & Hb & Hr1).
    exists (l ++ l1), body, (r1 ++ r). rewrite !blank_app, Hl, Hl1, Hr, Hr1.
    split; [| done]. rewrite <- !app_assoc. simpl. by rewrite <- app_assoc.
Qed.

(** X3. Whitespace before and after a line changes nothing of what the rule
    reads off it: whether it is a table row, whether it is a separator row,
    its column count and whether it is Liquid-only. *)
Theorem surrounding_whitespace_ignored l line r :
  blank l = true -> blank r = true ->
  test TABLE_ROW_REGEX (l ++ line ++ r) = test TABLE_ROW_REGEX line
  /\ test TABLE_SEPARATOR_REGEX (l ++ line ++ r) = test TABLE_SEPARATOR_REGEX line
  /\ countColumns (l ++ line ++ r) = countColumns line
  /\ isLiquidOnlyRow (l ++ line ++ r) = isLiquidOnlyRow line.
Proof.
  intros Hl Hr. split; [| split; [| split]].
  - apply eq_true_iff_eq. rewrite !test_matches. by apply matches_row_like_pad.
  - apply eq_true_iff_eq. rewrite !test_matches. by apply matches_row_like_pad.
  - unfold countColumns. by rewrite trim_pad.
  - unfold isLiquidOnlyRow. by rewrite trim_pad.
Qed.

(** X4. A separator row without a line terminator is a table row; with one
    between its delimiters it is not. *)
Theorem separator_row_is_table_row :
  (forall line,
     test TABLE_SEPARATOR_REGEX line = true ->
     forallb not_line_terminator line = true ->
     test TABLE_ROW_REGEX line = true)
  /\ test TABLE_SEPARATOR_REGEX [pipe; 0x2028; pipe] = true
  /\ test TABLE_ROW_REGEX [pipe; 0x2028; pipe] = false.
Proof.
  split; [| done]. intros line Hsep Hlt.
  apply test_matches, matches_row_like in Hsep as (l & body & r & -> & Hl & _ & Hr).
  apply test_matches, matches_row_like. exists l, body, r. split; [done |].
  rewrite forallb_app in Hlt. apply andb_true_iff in Hlt as [_ Hlt]. simpl in Hlt.
  rewrite forallb_app in Hlt. apply andb_true_iff in Hlt as [Hlt _]. done.
Qed.

Lemma split_cons_sep sep s : split sep (sep :: s) = [] :: split sep s.
Proof. simpl. by rewrite N.eqb_refl. Qed.

Lemma split_snoc_sep sep x : split sep (x ++ [sep]) = split sep x ++ [[]].
Proof.
  induction x as [| c x IH]; simpl.
  - by rewrite N.eqb_refl.
  - rewrite IH. destruct (c =? sep); [done |].
    destruct (split sep x) eqn:E; [by apply split_not_nil in E | done].
Qed.

Lemma split_length_count sep s :
  length (split sep s) = S (count_occ N.eq_dec s sep).
Proof.
  induction s as [| c s IH]; [done |]. simpl.
  destruct (N.eqb_spec c sep) as [-> | Hne].
  - destruct (N.eq_dec sep sep); [| done]. simpl. by rewrite IH.
  - destruct (N.eq_dec c sep); [done |]. rewrite <- IH.
    destruct (split sep s) eqn:E; [by apply split_not_nil in E | done].
Qed.

Lemma count_pipes_blank s : blank s = true -> count_pipes s = 0%nat.
Proof.
  intros Hs. apply count_occ_not_In. by apply blank_not_In.
Qed.

Lemma row_cells row :
  test TABLE_ROW_REGEX row = true ->
  exists cells,
    split pipe (trim row) = [] :: cells ++ [[]]
    /\ countColumns row = Normal (Z.of_nat (length cells))
    /\ (length cells + 1 = count_pipes row)%nat
    /\ (1 <= length cells)%nat
    /\ isLiquidOnlyRow row = forallb (test LIQUID_ONLY_CELL_REGEX) cells.
Proof.
  intros (l & body & r & -> & Hl & _ & Hr)%test_matches%matches_row_like.
  exists (split pipe body).
  assert (trim (l ++ pipe :: body ++ pipe :: r) = pipe :: body ++ [pipe]) as Htrim.
  { replace (l ++ pipe :: body ++ pipe :: r) with (l ++ (pipe :: body ++ [pipe]) ++ r)
      by (simpl; by rewrite <- app_assoc).
    rewrite trim_pad by done. by apply trim_bounded. }
  assert (split pipe (pipe :: body ++ [pipe]) = [] :: split pipe body ++ [[]]) as Hsplit
    by (by rewrite split_cons_sep, split_snoc_sep).
  assert (drop_last_if_blank (drop_first_if_blank ([] :: split pipe body ++ [[]]))
          = split pipe body) as Hcells.
  { unfold drop_first_if_blank, drop_last_if_blank. simpl.
    by rewrite last_snoc, removelast_last. }
  assert (includes (pipe :: body ++ [pipe]) pipe = true) as Hinc by done.
  pose proof (split_length_pos pipe body) as Hpos.
  split; [by rewrite Htrim |]. split; [| split; [| split; [done |]]].
  - rewrite countColumns_spec_eq. unfold countColumns_spec.
    rewrite Htrim, Hinc, Hsplit, Hcells. done.
  - pose proof (count_pipes_blank l Hl) as Hcl.
    pose proof (count_pipes_blank r Hr) as Hcr.
    unfold count_pipes in *. rewrite split_length_count.
    rewrite count_occ_app, count_occ_cons_eq, count_occ_app, count_occ_cons_eq by done.
    unfold jsstring, char in *. rewrite Hcl, Hcr. lia.
  - unfold isLiquidOnlyRow. rewrite Htrim, Hinc, Hsplit. cbn [negb].
    rewrite filteredCells_spec by (rewrite length_cons, length_app; simpl; lia).
    rewrite Hcells. destruct (split pipe body); [simpl in Hpos; lia | done].
Qed.

(** X5. The trimmed text of a table row splits into an empty piece, the
    cells between its delimiters and an empty piece.  [countColumns] is the
    number of those cells, one less than the number of delimiters of the row
    and never 0, and the row is Liquid-only exactly when each of those cells
    is a Liquid-only cell. *)
Theorem table_row_cells row :
  test TABLE_ROW_REGEX row = true ->
  exists cells,
    split pipe (trim row) = [] :: cells ++ [[]]
    /\ countColumns row = Normal (Z.of_nat (length cells))
    /\ (length cells + 1 = count_pipes row)%nat
    /\ (1 <= length cells)%nat
    /\ isLiquidOnlyRow row = forallb (test LIQUID_ONLY_CELL_REGEX) cells.
Proof. apply row_cells. Qed.

Lemma split_no_sep sep s : includes s sep = false -> split sep s = [s].
Proof.
  unfold includes. induction s as [| c s IH]; simpl; [done |].
  rewrite (N.eqb_sym sep c). destruct (c =? sep); [done |]. simpl.
  by intros ->%IH.
Qed.

(** X6. [countColumns] is 0 exactly for the rows without a delimiter and the
    rows that trim to a lone delimiter. *)
Theorem countColumns_zero_iff row :
  countColumns row = Normal 0%Z
  <-> includes row pipe = false \/ trim row = [pipe].
Proof.
  split.
  - destruct (includes row pipe) eqn:Hinc; [| by left]. intros H. right.
    rewrite countColumns_spec_eq in H. injection H as H. unfold countColumns_spec in H.
    rewrite <- (includes_trim row pipe is_space_pipe) in Hinc.
    destruct (trim_spec row) as (_ & _ & _ & _ & _ & Hm).
    destruct Hm as [Hm | (c & m & m' & d & Hc & Hsc & Hd & Hsd)];
      [by rewrite Hm in Hinc |].
    rewrite Hinc, Hc in H. cbn [is_empty orb negb] in H.
    pose proof (split_length_includes pipe _ Hinc) as Hlen. rewrite Hc in Hlen.
    destruct (N.eqb_spec c pipe) as [-> | Hne].
    + rewrite split_cons_sep in H. cbn [drop_first_if_blank blank forallb] in H.
      unfold drop_last_if_blank in H.
      destruct (last (split pipe m)) as [p |] eqn:Hlast;
        [| apply last_None in Hlast; by apply split_not_nil in Hlast].
      apply last_Some in Hlast as [ps Hps]. rewrite Hps in H.
      destruct (blank p) eqn:Hp;
        [| rewrite length_app in H; simpl in H; lia].
      rewrite removelast_last in H. destruct ps; [| simpl in H; lia].
      destruct (includes m pipe) eqn:Hm.
      * apply split_length_includes in Hm. rewrite Hps in Hm. simpl in Hm. lia.
      * rewrite split_no_sep in Hps by done. injection Hps as ->.
        destruct p as [| e p]; [by rewrite Hc |].
        exfalso. rewrite Hc in Hd.
        assert (last (e :: p) = Some d) as Hl.
        { change (pipe :: e :: p) with ([pipe] ++ (e :: p)) in Hd.
          apply (f_equal last) in Hd. rewrite last_snoc in Hd.
          rewrite last_app in Hd.
          destruct (last (e :: p)) eqn:E; [done | by apply last_None in E]. }
        apply last_Some in Hl as [q Hq]. rewrite Hq, blank_app in Hp.
        simpl in Hp. by rewrite Hsd, andb_false_r in Hp.
    + destruct (split_cons_ne pipe c m Hne) as (p & ps & Hs). rewrite Hs in H, Hlen.
      unfold drop_first_if_blank, blank in H. simpl in H. rewrite Hsc in H. simpl in H.
      unfold drop_last_if_blank in H. unfold jsstring, char in *.
      destruct (last ((c :: p) :: ps)) as [q |] eqn:Hlast;
        [| by apply last_None in Hlast].
      destruct (blank q); [| simpl in H; lia].
      destruct ps as [| p2 ps]; [simpl in Hlen; lia |]. simpl in H. lia.
  - intros [H | H]; [by apply countColumns_no_pipe |].
    unfold countColumns. by rewrite H.
Qed.

End PaddingFacts.

(** ** What a Liquid-only cell is *)

Module LiquidFacts.

Import Spec RegExpFacts StringFacts RowFacts ShapeFacts.

(** X7. [LIQUID_ONLY_CELL_REGEX] accepts exactly the cells made of optional
    whitespace, the opening marker, optional whitespace, one of the four
    keywords, any characters but line terminators, the closing marker and
    optional whitespace. *)
Theorem liquid_cell_shape cell :
  test LIQUID_ONLY_CELL_REGEX cell = true
  <-> exists l w kw rest r,
        cell = l ++ js "{%" ++ w ++ kw ++ rest ++ js "%}" ++ r
        /\ blank l = true /\ blank w = true
        /\ In kw recognized_keywords
        /\ forallb not_line_terminator rest = true
        /\ blank r = true.
Proof.
  rewrite test_matches. unfold LIQUID_ONLY_CELL_REGEX. split.
  - intros (l & s1 & -> & Hl%matches_star_class_inv
            & (o & s2 & -> & ->%matches_lit_inv
               & (w & s3 & -> & Hw%matches_star_class_inv
                  & (kw & s4 & -> & Hkw
                     & (rest & s5 & -> & Hrest%matches_star_class_inv
                        & (c & r & -> & ->%matches_lit_inv & Hr%matches_star_class_inv
                          )%matches_seq_inv)%matches_seq_inv)%matches_seq_inv
                    )%matches_seq_inv)%matches_seq_inv)%matches_seq_inv.
    exists l, w, kw, rest, r. repeat (split; [done |]). split; [| done].
    unfold recognized_keywords.
    apply matches_alt_inv in Hkw as [->%matches_lit_inv | Hkw]; [by left |].
    apply matches_alt_inv in Hkw as [->%matches_lit_inv | Hkw]; [right; by left |].
    apply matches_alt_inv in Hkw as [->%matches_lit_inv | ->%matches_lit_inv];
      [right; right; by left | right; right; right; by left].
  - intros (l & w & kw & rest & r & -> & Hl & Hw & Hkw & Hrest & Hr).
    apply MSeq; [by apply matches_star_class |].
    apply MSeq; [apply matches_lit |].
    apply MSeq; [by apply matches_star_class |].
    apply MSeq.
    { destruct Hkw as [<- | [<- | [<- | [<- | []]]]].
      - apply MAltL, matches_lit.
      - apply MAltR, MAltL, matches_lit.
      - apply MAltR, MAltR, MAltL, matches_lit.
      - apply MAltR, MAltR, MAltR, matches_lit. }
    apply MSeq; [by apply matches_star_class |].
    apply MSeq; [apply matches_lit | by apply matches_star_class].
Qed.

End LiquidFacts.

(** ** The scan state and the reported errors *)

Section ScanInvariant.

Context {Range : Type}.
Variable getRange : jsstring -> jsstring -> Range.

Import Spec StringFacts CellFacts RowFacts RegExpFacts ShapeFacts PaddingFacts.

Lemma state_at_0 lines : state_at getRange lines 0 = Normal initial.
Proof. unfold state_at. by rewrite take_0. Qed.

Lemma step_region lines i line st r :
  lines !! i = Some line ->
  region_at lines i st ->
  step getRange lines i line st = Normal r ->
  region_at lines (S i) (fst r).
Proof.
  intros Hi Hreg. unfold region_at in Hreg. destruct (inTable st) eqn:Hin.
  - rewrite step_inside by done.
    destruct Hreg as (j & header & n & Hj & Hh & Hrow & Hnext & Hmid & Hn & Hst).
    destruct (test TABLE_ROW_REGEX line) eqn:Hline; cbn [negb];
      [| by intros [= <-]].
    assert (region_at lines (S i) st) as Hreg'.
    { unfold region_at. rewrite Hin. exists j, header, n.
      repeat (split; [done || lia |]). split; [| done].
      intros m Hm. destruct (decide (m = i)) as [-> | Hne]; [eauto |].
      apply Hmid. lia. }
    repeat case_match; by intros [= <-].
  - subst st. rewrite step_outside by done.
    destruct (test TABLE_ROW_REGEX line) eqn:Hline; cbn [andb];
      [| by intros [= <-]].
    destruct (nextLine_is_separator lines i) eqn:Hnext; [| by intros [= <-]].
    intros [= <-]. unfold region_at. cbn [fst inTable].
    exists i, line, (countColumns_spec line).
    repeat (split; [done || lia || apply countColumns_spec_eq |]). done.
Qed.

Lemma state_at_region lines i :
  (i <= length lines)%nat ->
  exists st, state_at getRange lines i = Normal st /\ region_at lines i st.
Proof.
  induction i as [| i IH]; intros Hi.
  - exists initial. split; [apply state_at_0 | done].
  - destruct (lookup_lt_is_Some_2 lines i) as [line Hline]; [lia |].
    destruct IH as (st & Hst & Hreg); [lia |].
    destruct (scan_at getRange lines i line Hline)
      as (st' & r & _ & _ & Hst' & _ & Hr & Hnext & _).
    rewrite Hst in Hst'. injection Hst' as <-.
    exists (fst r). split; [done |]. by eapply step_region.
Qed.

(** X8. On reaching any line the scan state is either the initial one, with
    every variable [null], or that of one open region: its header is an
    earlier table row whose next line is a separator row, every line since
    is a table row, [expectedColumnCount] is the column count of the header
    and is at least 1, [tableStartLine] is the line number of the header and
    [headerRow] its text. *)
Theorem scan_state_invariant lines i :
  (i <= length lines)%nat ->
  exists st,
    state_at getRange lines i = Normal st
    /\ region_at lines i st
    /\ (forall n, expectedColumnCount st = Some n -> (1 <= n)%Z).
Proof.
  intros Hi. destruct (state_at_region lines i Hi) as (st & Hst & Hreg).
  exists st. split; [done | split; [done |]].
  intros n Hn. unfold region_at in Hreg. destruct (inTable st).
  - destruct Hreg as (j & header & n' & _ & _ & Hrow & _ & _ & Hcount & ->).
    injection Hn as <-.
    destruct (row_cells header Hrow) as (cells & _ & Hc & _ & Hlen & _).
    rewrite Hc in Hcount. injection Hcount as <-. lia.
  - by subst st.
Qed.

(** X9. Every reported error is a real mismatch.  It sits on a line that is
    a table row, not a separator row and not Liquid-only, at least two lines
    below a header row that is followed by a separator row, with only table
    rows in between; the column count of the line differs from that of the
    header; the error carries the line number, the text of the line, its
    highlight range, no fix, and the message for the two counts. *)
Theorem reported_errors_are_mismatches lines :
  exists ds,
    scan getRange lines = Normal ds
    /\ forall d, In d ds ->
         exists i line j header actual expected,
           lineNumber d = S i
           /\ lines !! i = Some line
           /\ context d = line
           /\ range d = getRange line (trim line)
           /\ fixInfo d = None
           /\ test TABLE_ROW_REGEX line = true
           /\ test TABLE_SEPARATOR_REGEX line = false
           /\ isLiquidOnlyRow line = false
           /\ (j + 2 <= i)%nat
           /\ lines !! j = Some header
           /\ test TABLE_ROW_REGEX header = true
           /\ nextLine_is_separator lines j = true
           /\ (forall m, (j < m < i)%nat ->
                         exists l, lines !! m = Some l /\ test TABLE_ROW_REGEX l = true)
           /\ countColumns line = Normal actual
           /\ countColumns header = Normal expected
           /\ actual <> expected
           /\ detail d = errorMessage actual (Some expected).
Proof.
  destruct (loop_total getRange lines 0 lines initial) as [r0 H0].
  exists (snd r0). split; [unfold scan; by rewrite H0 |].
  intros d Hd.
  pose proof (loop_lineNumber _ _ _ _ _ _ _ H0 Hd) as Hln.
  assert (exists i, lineNumber d = S i) as [i Hi]
    by (exists (lineNumber d - 1)%nat; lia).
  destruct (lookup_lt_is_Some_2 lines i) as [line Hline]; [lia |].
  destruct (scan_at getRange lines i line Hline)
    as (st & r & before & after & Hst & _ & Hr & _ & Hs & Hb & Ha).
  unfold scan in Hs. rewrite H0 in Hs. injection Hs as Hs. rewrite Hs in Hd.
  apply in_app_iff in Hd as [Hd | Hd]; [apply Hb in Hd; lia |].
  apply in_app_iff in Hd as [Hd | Hd]; [| apply Ha in Hd; lia].
  destruct (state_at_region lines i) as (st' & Hst' & Hreg);
    [apply Nat.lt_le_incl; by eapply lookup_lt_Some |].
  rewrite Hst in Hst'. injection Hst' as <-.
  unfold region_at in Hreg. destruct (inTable st) eqn:Hin;
    [| by rewrite (step_outside_quiet _ _ _ _ _ _ Hin Hr) in Hd].
  destruct Hreg as (j & header & n & Hj & Hh & Hrow & Hnext & Hmid & Hn & Hsteq).
  rewrite step_inside in Hr by done.
  destruct (test TABLE_ROW_REGEX line) eqn:Hlrow; cbn [negb] in Hr;
    [| by injection Hr as <-].
  destruct (test TABLE_SEPARATOR_REGEX line) eqn:Hlsep; cbn [orb] in Hr;
    [by injection Hr as <- |].
  destruct (isLiquidOnlyRow line) eqn:Hlliq; [by injection Hr as <- |].
  destruct (strict_ne _ _) eqn:Hne; [| by injection Hr as <-].
  injection Hr as <-. destruct Hd as [<- | []].
  rewrite Hsteq in Hne |- *. cbn [expectedColumnCount strict_ne] in Hne |- *.
  exists i, line, j, header, (countColumns_spec line), n.
  cbn [lineNumber context range fixInfo detail].
  split; [lia |]. repeat (split; [done |]).
  split.
  { destruct (decide (i = S j)) as [-> | Hij]; [| lia].
    unfold nextLine_is_separator in Hnext.
    replace (j + 1)%nat with (S j) in Hnext by lia. rewrite Hline in Hnext.
    apply andb_true_iff in Hnext as [_ Hnext]. congruence. }
  repeat (split; [done |]).
  split; [apply countColumns_spec_eq |]. split; [done |]. split; [| done].
  intros E. rewrite E, Z.eqb_refl in Hne. done.
Qed.

End ScanInvariant.

(** ** Order of the errors, quiet documents, documents in parts *)

Section ScanOrder.

Context {Range : Type}.
Variable getRange : jsstring -> jsstring -> Range.

Import Spec StringFacts CellFacts RowFacts RegExpFacts.

Lemma step_at_most_one lines i line st r :
  step getRange lines i line st = Normal r ->
  snd r = [] \/ exists d, snd r = [d] /\ lineNumber d = S i.
Proof.
  destruct (inTable st) eqn:Hst.
  - rewrite step_inside by done.
    repeat case_match; intros [= <-]; simpl; auto.
    right. eexists. split; [done |]. simpl. lia.
  - rewrite step_outside by done. case_match; intros [= <-]; auto.
Qed.

Lemma loop_sorted lines i todo st r :
  loop getRange lines i todo st = Normal r ->
  StronglySorted lt (map lineNumber (snd r)).
Proof.
  revert i st r. induction todo as [| line todo IH]; intros i st r; simpl.
  - intros [= <-]. constructor.
  - destruct (step_total getRange lines i line st) as [r1 H1]. rewrite H1. cbn [bind].
    destruct (loop_total getRange lines (S i) todo (fst r1)) as [r2 H2]. rewrite H2.
    cbn [bind]. intros [= <-]. cbn [snd].
    pose proof (IH _ _ _ H2) as Hs.
    destruct (step_at_most_one _ _ _ _ _ H1) as [-> | (d & -> & Hd)]; [done |].
    simpl. constructor; [done |]. rewrite Hd.
    apply Forall_forall. intros n (d' & <- & Hd')%list_elem_of_In%in_map_iff.
    apply (loop_lineNumber _ _ _ _ _ _ _ H2) in Hd'. lia.
Qed.

Lemma sorted_bounded_length (l : list nat) a b :
  StronglySorted lt l -> (forall x, In x l -> (a < x <= b)%nat) ->
  (length l <= b - a)%nat.
Proof.
  revert a. induction l as [| x l IH]; intros a Hs Hb; simpl; [lia |].
  apply StronglySorted_inv in Hs as [Hs Hx].
  assert (a < x <= b)%nat by (apply Hb; by left).
  assert (length l <= b - x)%nat; [| lia].
  apply IH; [done |]. intros y Hy. split.
  - rewrite Forall_forall in Hx. apply Hx. by apply list_elem_of_In.
  - apply Hb. by right.
Qed.

(** A closed scan state is the initial one. *)
Lemma step_closed_initial lines i line st r :
  (inTable st = false -> st = initial) ->
  step getRange lines i line st = Normal r ->
  inTable (fst r) = false -> fst r = initial.
Proof.
  intros Hst. destruct (inTable st) eqn:Hin.
  - rewrite step_inside by done. repeat case_match; intros [= <-]; simpl; congruence.
  - rewrite step_outside by done. case_match; intros [= <-]; simpl; [done | auto].
Qed.

Lemma loop_closed_initial lines i todo st r :
  (inTable st = false -> st = initial) ->
  loop getRange lines i todo st = Normal r ->
  inTable (fst r) = false -> fst r = initial.
Proof.
  revert i st r. induction todo as [| line todo IH]; intros i st r Hst; simpl.
  - by intros [= <-].
  - destruct (step_total getRange lines i line st) as [r1 H1]. rewrite H1. cbn [bind].
    destruct (loop_total getRange lines (S i) todo (fst r1)) as [r2 H2]. rewrite H2.
    cbn [bind]. intros [= <-]. cbn [fst].
    eapply IH; [| done]. by eapply step_closed_initial.
Qed.

(** An iteration reads the other lines only to look for a separator after a
    table row. *)
Lemma step_ext lines lines' i line st :
  (test TABLE_ROW_REGEX line = true ->
   nextLine_is_separator lines i = nextLine_is_separator lines' i) ->
  step getRange lines i line st = step getRange lines' i line st.
Proof.
  intros Hnext. destruct (inTable st) eqn:Hin.
  - by rewrite (step_inside getRange lines i line st Hin),
               (step_inside getRange lines' i line st Hin).
  - rewrite (step_outside getRange lines i line st Hin),
            (step_outside getRange lines' i line st Hin).
    destruct (test TABLE_ROW_REGEX line); [by rewrite Hnext | done].
Qed.

Lemma loop_ext lines lines' i todo st :
  (forall j line, todo !! j = Some line -> test TABLE_ROW_REGEX line = true ->
                  nextLine_is_separator lines (i + j) = nextLine_is_separator lines' (i + j)) ->
  loop getRange lines i todo st = loop getRange lines' i todo st.
Proof.
  revert i st. induction todo as [| line todo IH]; intros i st Hnext; [done |].
  cbn [loop]. rewrite (step_ext lines lines').
  - destruct (step getRange lines' i line st) as [r |]; cbn [bind]; [| done].
    rewrite IH; [done |]. intros j l Hj Hl.
    replace (S i + j)%nat with (i + S j)%nat by lia. by apply (Hnext (S j) l).
  - intros Hl. rewrite <- (Nat.add_0_r i). by apply (Hnext 0%nat line).
Qed.

(** The same lines met [k] lines further down give the same errors, [k]
    lines further down. *)
Lemma step_shift lines lines' k i line st r :
  (test TABLE_ROW_REGEX line = true ->
   nextLine_is_separator lines' (k + i) = nextLine_is_separator lines i) ->
  step getRange lines i line st = Normal r ->
  step getRange lines' (k + i) line (shift_state k st)
  = Normal (shift_state k (fst r), map (renumber k) (snd r)).
Proof.
  intros Hnext. destruct (inTable st) eqn:Hin.
  - rewrite (step_inside getRange lines i line st Hin),
            (step_inside getRange lines' (k + i) line (shift_state k st) Hin).
    cbn [shift_state expectedColumnCount].
    repeat case_match; intros [= <-]; try done.
    cbn [fst snd map]. unfold renumber. cbn [lineNumber detail context range fixInfo].
    by rewrite Nat.add_assoc.
  - rewrite (step_outside getRange lines i line st Hin),
            (step_outside getRange lines' (k + i) line (shift_state k st) Hin).
    destruct (test TABLE_ROW_REGEX line); cbn [andb]; [| by intros [= <-]].
    rewrite Hnext by done.
    destruct (nextLine_is_separator lines i); intros [= <-]; [| done].
    cbn [fst snd map]. unfold shift_state. cbn. by rewrite Nat.add_assoc.
Qed.

Lemma loop_shift lines lines' k i todo st r :
  (forall j line, todo !! j = Some line -> test TABLE_ROW_REGEX line = true ->
                  nextLine_is_separator lines' (k + (i + j)) = nextLine_is_separator lines (i + j)) ->
  loop getRange lines i todo st = Normal r ->
  loop getRange lines' (k + i) todo (shift_state k st)
  = Normal (shift_state k (fst r), map (renumber k) (snd r)).
Proof.
  revert i st r. induction todo as [| line todo IH]; intros i st r Hnext.
  - by intros [= <-].
  - cbn [loop].
    destruct (step_total getRange lines i line st) as [r1 H1]. rewrite H1. cbn [bind].
    destruct (loop_total getRange lines (S i) todo (fst r1)) as [r2 H2]. rewrite H2.
    cbn [bind]. intros [= <-].
    rewrite (step_shift lines lines' k i line st r1); [| | done].
    + cbn [bind fst snd]. replace (S (k + i)) with (k + S i)%nat by lia.
      rewrite (IH (S i) (fst r1) r2); [| | done].
      * cbn [bind fst snd]. by rewrite map_app.
      * intros j l Hj Hl. replace (S i + j)%nat with (i + S j)%nat by lia.
        by apply (Hnext (S j) l).
    + intros Hl. rewrite <- (Nat.add_0_r i). by apply (Hnext 0%nat line).
Qed.

(** Every error sits at least two lines below the start of the document. *)
Lemma step_quiet_early lines i line st r :
  (i < 2)%nat -> lines !! i = Some line -> region_at lines i st ->
  step getRange lines i line st = Normal r -> snd r = [].
Proof.
  intros Hi Hline Hreg. unfold region_at in Hreg. destruct (inTable st) eqn:Hin;
    [| by apply step_outside_quiet].
  destruct Hreg as (j & header & n & Hj & _ & _ & Hnext & _).
  assert (j = 0 /\ i = 1)%nat as [-> ->] by lia.
  unfold nextLine_is_separator in Hnext. simpl in Hnext. rewrite Hline in Hnext.
  apply andb_true_iff in Hnext as [_ Hnext].
  rewrite step_inside, Hnext by done. cbn [orb]. case_match; by intros [= <-].
Qed.

(** X10. The errors come out in line order with at most one per line, none
    of them on the first two lines of the document, so there are at most
    two fewer errors than lines. *)
Theorem errors_in_line_order lines :
  exists ds,
    scan getRange lines = Normal ds
    /\ StronglySorted lt (map lineNumber ds)
    /\ (forall d, In d ds -> (3 <= lineNumber d <= length lines)%nat)
    /\ (length ds <= length lines - 2)%nat.
Proof.
  destruct (loop_total getRange lines 0 lines initial) as [r0 H0].
  exists (snd r0). split; [unfold scan; by rewrite H0 |].
  pose proof (loop_sorted _ _ _ _ _ H0) as Hsorted.
  assert (forall d, In d (snd r0) -> (3 <= lineNumber d <= length lines)%nat) as Hb.
  { intros d Hd. pose proof (loop_lineNumber _ _ _ _ _ _ _ H0 Hd) as Hln.
    split; [| lia].
    destruct (decide (lineNumber d < 3)%nat) as [Hlt |]; [exfalso | lia].
    assert (exists i, lineNumber d = S i) as [i Hi]
      by (exists (lineNumber d - 1)%nat; lia).
    destruct (lookup_lt_is_Some_2 lines i) as [line Hline]; [lia |].
    destruct (scan_at getRange lines i line Hline)
      as (st & r & before & after & Hst & _ & Hr & _ & Hs & Hbf & Haf).
    unfold scan in Hs. rewrite H0 in Hs. injection Hs as Hs. rewrite Hs in Hd.
    destruct (state_at_region getRange lines i) as (st' & Hst' & Hreg); [lia |].
    rewrite Hst in Hst'. injection Hst' as <-.
    rewrite (step_quiet_early lines i line st r) in Hd by (done || lia).
    apply in_app_iff in Hd as [Hd | Hd]; [apply Hbf in Hd | apply Haf in Hd]; lia. }
  split; [done | split; [done |]].
  rewrite <- (length_map lineNumber).
  apply sorted_bounded_length; [done |].
  intros x (d & <- & Hd%Hb)%in_map_iff. lia.
Qed.

(** X11. A document without a separator row gets no error. *)
Theorem no_separator_no_errors lines :
  (forall line, In line lines -> test TABLE_SEPARATOR_REGEX line = false) ->
  scan getRange lines = Normal [].
Proof.
  intros Hsep. unfold scan.
  destruct (loop_quiet_until_open getRange lines 0 lines initial) as [st' ->];
    [done | | done].
  intros j line _ _. unfold nextLine_is_separator.
  destruct (lines !! (0 + j + 1)%nat) as [nextLine |] eqn:Hnext;
    [| by rewrite andb_false_r].
  rewrite (Hsep nextLine), !andb_false_r; [done |].
  apply list_elem_of_In. by eapply list_elem_of_lookup_2.
Qed.

(** X12. A line that is not a table row cuts the document in two: the errors
    of the whole are the errors of the part up to and including that line,
    followed by the errors of the part after it with their line numbers
    moved down by the length of the first part. *)
Theorem scan_splits_at_non_row before line after :
  test TABLE_ROW_REGEX line = false ->
  exists ds1 ds2,
    scan getRange (before ++ [line]) = Normal ds1
    /\ scan getRange after = Normal ds2
    /\ scan getRange (before ++ line :: after)
       = Normal (ds1 ++ map (renumber (length before + 1)) ds2).
Proof.
  intros Hline.
  set (part1 := before ++ [line]).
  set (whole := before ++ line :: after).
  assert (whole = part1 ++ after) as Hwhole
    by (unfold whole, part1; by rewrite <- app_assoc).
  destruct (loop_total getRange part1 0 before initial) as [ra Ha].
  destruct (step_total getRange part1 (length before) line (fst ra)) as [rl Hl].
  destruct (loop_total getRange after 0 after initial) as [rb Hb].
  assert (loop getRange part1 0 part1 initial = Normal (initial, snd ra ++ snd rl)) as H1.
  { unfold part1 at 2. rewrite loop_app, Ha. cbn [bind loop]. rewrite Nat.add_0_l, Hl.
    cbn [bind fst snd]. rewrite app_nil_r. do 2 f_equal.
    pose proof (loop_closed_initial _ _ _ _ _ (fun _ => eq_refl) Ha) as Hclosed.
    destruct (inTable (fst ra)) eqn:Hin.
    - rewrite step_inside, Hline in Hl by done. by injection Hl as <-.
    - rewrite step_outside, Hline in Hl by done. injection Hl as <-. auto. }
  exists (snd ra ++ snd rl), (snd rb).
  split; [unfold scan; by rewrite H1 |].
  split; [unfold scan; by rewrite Hb |].
  unfold scan. rewrite Hwhole at 2. rewrite loop_app.
  rewrite (loop_ext whole part1 0 part1 initial), H1.
  - cbn [bind fst snd]. rewrite Nat.add_0_l.
    replace (length part1) with (length before + 1 + 0)%nat
      by (unfold part1; rewrite length_app; simpl; lia).
    pose proof (loop_shift after whole (length before + 1) 0 after initial rb) as Hs.
    change (shift_state (length before + 1) initial) with initial in Hs.
    rewrite Hs; [done | | done].
    intros j l _ _. unfold nextLine_is_separator. rewrite Hwhole.
    assert (length part1 = length before + 1)%nat as Hlen1
      by (unfold part1; rewrite length_app; simpl; lia).
    rewrite lookup_app_r by lia.
    by replace (length before + 1 + (0 + j) + 1 - length part1)%nat
      with (0 + j + 1)%nat by lia.
  - intros j l Hj Hl'. unfold nextLine_is_separator. rewrite Hwhole.
    destruct (decide (j < length before)%nat) as [Hlt |].
    + rewrite lookup_app_l; [done |]. unfold part1. rewrite length_app. simpl. lia.
    + unfold part1 in Hj. apply lookup_lt_Some in Hj as Hlen.
      rewrite length_app in Hlen. simpl in Hlen.
      assert (j = length before) as -> by lia.
      rewrite list_lookup_middle in Hj by done. congruence.
Qed.

End ScanOrder.

(** ** Bounds on the column count *)

Module CountBounds.

Import Spec StringFacts CellFacts PaddingFacts.

Lemma drop_first_if_blank_length pieces :
  (length pieces - 1 <= length (drop_first_if_blank pieces) <= length pieces)%nat.
Proof.
  destruct pieces as [| p ps]; simpl; [lia |]. destruct (blank p); simpl; lia.
Qed.

Lemma drop_last_if_blank_length pieces :
  (length pieces - 1 <= length (drop_last_if_blank pieces) <= length pieces)%nat.
Proof.
  unfold drop_last_if_blank. destruct (last pieces) as [p |] eqn:Hlast.
  - apply last_Some in Hlast as [ps ->]. destruct (blank p).
    + rewrite removelast_last, length_app. simpl. lia.
    + lia.
  - apply last_None in Hlast as ->. simpl. lia.
Qed.

Lemma count_pipes_trim row : count_pipes (trim row) = count_pipes row.
Proof.
  destruct (trim_spec row) as (l & r & Hrow & Hl & Hr & _).
  rewrite Hrow at 2. unfold count_pipes. rewrite !count_occ_app.
  pose proof (count_pipes_blank l Hl) as Hcl.
  pose proof (count_pipes_blank r Hr) as Hcr.
  unfold count_pipes in Hcl, Hcr. unfold jsstring, char in *. lia.
Qed.

(** X13. The column count of a row is never negative and is within one of
    the number of its delimiters: at least that number less one and at most
    that number plus one. *)
Theorem countColumns_bounds row :
  exists n,
    countColumns row = Normal n
    /\ (0 <= n)%Z
    /\ (Z.of_nat (count_pipes row) - 1 <= n <= Z.of_nat (count_pipes row) + 1)%Z.
Proof.
  rewrite countColumns_spec_eq. eexists. split; [done |].
  unfold countColumns_spec.
  destruct (includes (trim row) pipe) eqn:Hinc.
  - assert (is_empty (trim row) = false) as -> by (by destruct (trim row)).
    cbn [orb negb].
    pose proof (split_length_count pipe (trim row)) as Hlen.
    fold (count_pipes (trim row)) in Hlen. rewrite count_pipes_trim in Hlen.
    pose proof (drop_first_if_blank_length (split pipe (trim row))).
    pose proof (drop_last_if_blank_length (drop_first_if_blank (split pipe (trim row)))).
    lia.
  - rewrite orb_true_r.
    assert (count_pipes row = 0)%nat as ->; [| lia].
    rewrite <- count_pipes_trim. apply count_occ_not_In. by apply includes_false.
Qed.

End CountBounds.

(** * Further sample runs *)

Module MoreWitness.

Import Sample MoreSample Spec PaddingFacts ShapeFacts LiquidFacts CountBounds.

Local Open Scope nat_scope.

Lemma table_row_shape_witness : test TABLE_ROW_REGEX (js "  | a | b |") = true.
Proof.
  apply (proj2 (table_row_shape (js "  | a | b |"))).
  exists (js "  "), (js " a | b "), []. repeat split.
Defined.

Lemma separator_row_shape_witness : test TABLE_SEPARATOR_REGEX (js "|:--|:-:|") = true.
Proof.
  apply (proj2 (separator_row_shape (js "|:--|:-:|"))).
  exists [], (js ":--|:-:"), []. repeat split.
Defined.

Lemma surrounding_whitespace_ignored_witness :
  test TABLE_ROW_REGEX indented_row = test TABLE_ROW_REGEX (js "| a | b | c |")
  /\ test TABLE_SEPARATOR_REGEX indented_row = test TABLE_SEPARATOR_REGEX (js "| a | b | c |")
  /\ countColumns indented_row = countColumns (js "| a | b | c |")
  /\ isLiquidOnlyRow indented_row = isLiquidOnlyRow (js "| a | b | c |").
Proof.
  apply (surrounding_whitespace_ignored (js "   ") (js "| a | b | c |") (js "  "));
    reflexivity.
Defined.

Lemma separator_row_is_table_row_witness : test TABLE_ROW_REGEX separator = true.
Proof. apply (proj1 separator_row_is_table_row separator); reflexivity. Defined.

Lemma table_row_cells_witness :
  exists cells,
    split pipe (trim header) = [] :: cells ++ [[]]
    /\ countColumns header = Normal (Z.of_nat (length cells))
    /\ length cells + 1 = count_pipes header
    /\ 1 <= length cells
    /\ isLiquidOnlyRow header = forallb (test LIQUID_ONLY_CELL_REGEX) cells.
Proof. apply (table_row_cells header). reflexivity. Defined.

Lemma countColumns_zero_iff_witness : countColumns (js " | ") = Normal 0%Z.
Proof. apply (proj2 (countColumns_zero_iff (js " | "))). right. reflexivity. Defined.

Lemma liquid_cell_shape_witness : test LIQUID_ONLY_CELL_REGEX liquid_cell = true.
Proof.
  apply (proj2 (liquid_cell_shape liquid_cell)).
  exists (js " "), (js " "), (js "ifversion"), (js " ghes "), (js " ").
  split; [reflexivity |]. split; [reflexivity |]. split; [reflexivity |].
  split; [by left |]. split; reflexivity.
Defined.

Lemma scan_state_invariant_witness :
  exists st,
    state_at getRange three_columns 2 = Normal st
    /\ region_at three_columns 2 st
    /\ (forall n, expectedColumnCount st = Some n -> (1 <= n)%Z).
Proof. apply (scan_state_invariant getRange three_columns 2). simpl. lia. Defined.

Lemma no_separator_no_errors_witness : scan getRange no_separator = Normal [].
Proof.
  apply (no_separator_no_errors getRange no_separator).
  intros line [<- | [<- | [<- | []]]]; reflexivity.
Defined.

Lemma scan_splits_at_non_row_witness :
  exists ds1 ds2,
    scan getRange ([header; separator; js "| a |"] ++ [js ""]) = Normal ds1
    /\ scan getRange [header; separator; js "| a | b | c |"] = Normal ds2
    /\ scan getRange ([header; separator; js "| a |"] ++ js "" :: [header; separator; js "| a | b | c |"])
       = Normal (ds1 ++ map (renumber (length [header; separator; js "| a |"] + 1)) ds2).
Proof.
  apply (scan_splits_at_non_row getRange [header; separator; js "| a |"] (js "")
           [header; separator; js "| a | b | c |"]).
  reflexivity.
Defined.

Lemma reported_errors_are_mismatches_witness :
  exists ds,
    scan getRange three_columns = Normal ds
    /\ forall d, In d ds ->
         exists i line, lineNumber d = S i /\ three_columns !! i = Some line
                        /\ context d = line /\ test TABLE_ROW_REGEX line = true.
Proof.
  destruct (reported_errors_are_mismatches getRange three_columns) as (ds & Hs & H).
  exists ds. split; [exact Hs |]. intros d Hd.
  destruct (H d Hd) as (i & line & _ & _ & _ & _ & Hi & Hline & Hc & _ & _ & Hrow & _).
  exists i, line. repeat split; assumption.
Defined.

Lemma errors_in_line_order_witness :
  exists ds,
    scan getRange two_tables = Normal ds
    /\ StronglySorted lt (map lineNumber ds)
    /\ (forall d, In d ds -> 3 <= lineNumber d <= length two_tables)
    /\ length ds <= length two_tables - 2.
Proof. apply (errors_in_line_order getRange two_tables). Defined.

Lemma countColumns_bounds_witness :
  exists n,
    countColumns header = Normal n
    /\ (0 <= n)%Z
    /\ (Z.of_nat (count_pipes header) - 1 <= n <= Z.of_nat (count_pipes header) + 1)%Z.
Proof. apply (countColumns_bounds header). Defined.

(** The errors of the two tables of [two_tables], in line order. *)
Example two_tables_lines :
  exists ds, scan getRange two_tables = Normal ds
             /\ map lineNumber ds = [3; 7].
Proof. eexists. split; reflexivity. Qed.

End MoreWitness.
